(** * Tunnel relay: registry, correlator, session handler and HTTP adapter

    A shallow embedding of the relay's TypeScript sources
    ([registry.ts], [wsHandler.ts], [proxy.ts]) together with the
    properties its specification states about them.

    Layout.  Definitions: [Subdomain] (label utilities of
    [wsHandler.ts]), [Registry] (the [TunnelRegistry] class, run in an
    explicit [World]), [Session] (the per-connection message handler),
    [Proxy] (the HTTP adapter); then the vocabulary of the statements
    ([Label], [Spec], [ProxySpec]), a sample world ([Sample]) and the
    turns of the event loop ([Reach]).  Theorems follow, component by
    component.

    Conventions.  Objects that outlive the call that made them
    (sockets, tunnel clients, promises, timers) are named by a number
    and kept in the [World]; every call with an outside effect is also
    appended to the world's [trace], which is how "before" and "exactly
    once" are stated.  What the runtime and the libraries decide
    (whether [send] throws, the UUIDs, the random draws, the clock) is
    part of the world. *)

From Stdlib Require Import ZArith NArith Ascii String List Lia Bool DecimalString.
From stdpp Require Import base option list gmap strings.

Local Open Scope string_scope.

(* ===================================================================== *)
(** * Subdomain utilities ([wsHandler.ts]) *)
(* ===================================================================== *)

Module Subdomain.

(** A JavaScript string is a sequence of UTF-16 code units.  The model
    takes strings whose code units are below 256 (Rocq's [string]); on
    those [String.prototype.toLowerCase] maps [A-Z] to [a-z] and maps no
    other code unit into [[a-z0-9-]], so lowering only the ASCII
    capitals gives the same result once the character class of the
    first [replace] has been applied. *)

Definition code (c : ascii) : N := N_of_ascii c.

Definition isUpper (c : ascii) : bool := (65 <=? code c)%N && (code c <=? 90)%N.
Definition isLower (c : ascii) : bool := (97 <=? code c)%N && (code c <=? 122)%N.
Definition isDigit (c : ascii) : bool := (48 <=? code c)%N && (code c <=? 57)%N.
Definition isDash (c : ascii) : bool := (code c =? 45)%N.

Definition dash : ascii := "-"%char.

(** [.toLowerCase()] on one code unit. *)
Definition toLowerChar (c : ascii) : ascii :=
  if isUpper c then ascii_of_N (code c + 32) else c.

Definition toLowerCase (l : list ascii) : list ascii := map toLowerChar l.

(** The character class [[a-z0-9-]]. *)
Definition inClass (c : ascii) : bool := isLower c || isDigit c || isDash c.

(** [.replace(/[^a-z0-9-]/g, '-')]: every code unit outside the class
    becomes a dash, one for one. *)
Definition replaceInvalid (l : list ascii) : list ascii :=
  map (fun c => if inClass c then c else dash) l.

(** [.replace(/-+/g, '-')]: every maximal run of dashes becomes one. *)
Fixpoint collapseDashes (l : list ascii) : list ascii :=
  match l with
  | [] => []
  | c :: r =>
      if isDash c then
        match r with
        | d :: _ => if isDash d then collapseDashes r else c :: collapseDashes r
        | [] => [c]
        end
      else c :: collapseDashes r
  end.

(** [.replace(/^-|-$/g, '')]: the match at index 0 removes one leading
    dash, the match at the last index removes one trailing dash of what
    is left. *)
Definition dropLeadingDash (l : list ascii) : list ascii :=
  match l with
  | c :: r => if isDash c then r else l
  | [] => []
  end.

Fixpoint dropTrailingDash (l : list ascii) : list ascii :=
  match l with
  | [] => []
  | [c] => if isDash c then [] else [c]
  | c :: r => c :: dropTrailingDash r
  end.

Definition trimEdges (l : list ascii) : list ascii :=
  dropTrailingDash (dropLeadingDash l).

(** DNS label max 63 chars. *)
Definition LABEL_MAX : nat := 63.

(** The chain of [sanitizeSubdomain] up to, and excluding,
    [.substring(0, 63)]. *)
Definition normalize (l : list ascii) : list ascii :=
  trimEdges (collapseDashes (replaceInvalid (toLowerCase l))).

Definition sanitizeChars (l : list ascii) : list ascii :=
  firstn LABEL_MAX (normalize l).

Definition sanitizeSubdomain (input : string) : string :=
  string_of_list_ascii (sanitizeChars (list_ascii_of_string input)).

(** [generateSubdomain]: dictionaries of twelve words each. *)
Definition adjectives : list string :=
  ["swift"; "bold"; "calm"; "dark"; "epic"; "fair";
   "glad"; "keen"; "live"; "neat"; "pure"; "warm"].
Definition nouns : list string :=
  ["app"; "code"; "dev"; "hub"; "lab"; "net";
   "pro"; "run"; "web"; "api"; "bit"; "box"].

(** [`${adj}-${noun}-${id}`], the two indices being
    [Math.floor(Math.random() * 12)] and [uuid] a [uuidv4()] draw. *)
Definition generateSubdomainFrom (i j : nat) (uuid : string) : string :=
  nth (i mod 12) adjectives EmptyString +:+ "-"
  +:+ nth (j mod 12) nouns EmptyString +:+ "-"
  +:+ substring 0 4 uuid.

End Subdomain.

(* ===================================================================== *)
(** * The tunnel registry ([registry.ts]) *)
(* ===================================================================== *)

Module Registry.

(** ** Data model *)

(** [WebSocket.readyState]. *)
Inductive ReadyState := CONNECTING | OPEN | CLOSING | CLOSED.

#[global] Instance ReadyState_eq_dec : EqDecision ReadyState.
Proof. solve_decision. Defined.

Definition isOpen (s : ReadyState) : bool :=
  match s with OPEN => true | _ => false end.

(** What the program can observe of a [WebSocket] object: its
    [readyState], and whether a call of [send] on it throws (and with
    which message); the latter is decided by the transport, outside the
    program. *)
Record Socket := {
  readyState : ReadyState;
  sendThrows : option string;
}.

Record TunnelRequest := {
  req_id : string;
  req_method : string;
  req_path : string;
  req_headers : list (string * string);
  req_body : option string;            (* base64-encoded *)
}.

Record TunnelResponse := {
  res_id : string;
  statusCode : Z;
  res_headers : list (string * string); (* in [Object.entries] order *)
  res_body : option string;            (* base64-encoded *)
}.

(** The [Error] objects the registry creates, and the one [ws.send]
    may throw. *)
Inductive Error :=
  | NoTunnelFound (subdomain : string)
  | TunnelNotOpen
  | TunnelDisconnected
  | RequestTimedOut
  | SendFailed (message : string).


(** The JSON text frames the server writes on a channel. *)
Inductive Frame :=
  | FrameRequest (data : TunnelRequest)
  | FrameTunnelReady (url subdomain id : string)
  | FramePing
  | FrameError (message : string).

(** One entry of [pendingRequests]: [resolve] and [reject] are the two
    ends of one promise, named here by the promise ([sink]); [timeout]
    is the handle [setTimeout] returned. *)
Record PendingRequest := {
  sink : nat;
  timeout : nat;
}.

(** ** JavaScript [Map] with string keys

    A [Map] iterates in insertion order; [set] on a present key keeps
    the key's place, on a new key appends. *)
Section JsMap.
Context {V : Type}.

Fixpoint jsGet (k : string) (m : list (string * V)) : option V :=
  match m with
  | [] => None
  | (k', v) :: r => if decide (k = k') then Some v else jsGet k r
  end.

Fixpoint jsSet (k : string) (v : V) (m : list (string * V)) : list (string * V) :=
  match m with
  | [] => [(k, v)]
  | (k', v') :: r =>
      if decide (k = k') then (k', v) :: r else (k', v') :: jsSet k v r
  end.

Fixpoint jsDelete (k : string) (m : list (string * V)) : list (string * V) :=
  match m with
  | [] => []
  | (k', v') :: r =>
      if decide (k = k') then jsDelete k r else (k', v') :: jsDelete k r
  end.
End JsMap.

Record TunnelClient := {
  id : string;
  subdomain : string;
  localPort : Z;
  ws : nat;                             (* the [WebSocket] object *)
  connectedAt : Z;
  requestCount : Z;
  pendingRequests : list (string * PendingRequest);
}.

(** The closure handed to [setTimeout] in [forwardRequest]: it captures
    the [client] object, [request.id] and [reject]. *)
Record Timer := {
  tm_client : nat;
  tm_request : string;
  tm_sink : nat;
  tm_delay : Z;
}.

Inductive Settled :=
  | Resolved (response : TunnelResponse)
  | Rejected (err : Error).

(** Every call with an effect outside the callee's locals, in program
    order ([console.log] apart). *)
Inductive Event :=
  | EvSetTimeout (timer : nat) (ms : Z)
  | EvClearTimeout (timer : nat)
  | EvResolve (sink : nat) (response : TunnelResponse)
  | EvReject (sink : nat) (err : Error)
  | EvSend (ws : nat) (frame : Frame)
  | EvClose (ws : nat) (code : Z) (reason : string)
  | EvPendingSet (client : nat) (requestId : string)
  | EvPendingDelete (client : nat) (requestId : string)
  | EvPendingClear (client : nat)
  | EvTunnelsSet (subdomain : string) (client : nat)
  | EvTunnelsDelete (subdomain : string).

(** The state the registry runs in.  [TunnelClient] objects live in a
    heap ([clients]) and the registry's map holds references, because
    timer closures and callers keep a client after the map dropped it.
    [promises] holds the promises already settled; [timers] the armed
    timers.  [uuids] is the stream [uuidv4()] draws from, [randoms] the
    one [Math.random()] draws from; [clock] is what [new Date()] reads. *)
Record World := {
  tunnels : list (string * nat);
  clients : gmap nat TunnelClient;
  sockets : nat -> Socket;
  timers : gmap nat Timer;
  promises : gmap nat Settled;
  nextClient : nat;
  nextTimer : nat;
  nextPromise : nat;
  uuids : nat -> string;
  uuidPos : nat;
  randoms : nat -> nat;
  randomPos : nat;
  clock : Z;
  trace : list Event;
}.

Definition withTunnels (x : list (string * nat)) (w : World) : World :=
  {| tunnels := x; clients := clients w; sockets := sockets w;
     timers := timers w; promises := promises w; nextClient := nextClient w;
     nextTimer := nextTimer w; nextPromise := nextPromise w; uuids := uuids w;
     uuidPos := uuidPos w; randoms := randoms w;
     randomPos := randomPos w; clock := clock w; trace := trace w |}.

Definition withClients (x : gmap nat TunnelClient) (w : World) : World :=
  {| tunnels := tunnels w; clients := x; sockets := sockets w;
     timers := timers w; promises := promises w; nextClient := nextClient w;
     nextTimer := nextTimer w; nextPromise := nextPromise w; uuids := uuids w;
     uuidPos := uuidPos w; randoms := randoms w;
     randomPos := randomPos w; clock := clock w; trace := trace w |}.

Definition withSockets (x : nat -> Socket) (w : World) : World :=
  {| tunnels := tunnels w; clients := clients w; sockets := x;
     timers := timers w; promises := promises w; nextClient := nextClient w;
     nextTimer := nextTimer w; nextPromise := nextPromise w; uuids := uuids w;
     uuidPos := uuidPos w; randoms := randoms w;
     randomPos := randomPos w; clock := clock w; trace := trace w |}.

Definition withTimers (x : gmap nat Timer) (w : World) : World :=
  {| tunnels := tunnels w; clients := clients w; sockets := sockets w;
     timers := x; promises := promises w; nextClient := nextClient w;
     nextTimer := nextTimer w; nextPromise := nextPromise w; uuids := uuids w;
     uuidPos := uuidPos w; randoms := randoms w;
     randomPos := randomPos w; clock := clock w; trace := trace w |}.

Definition withPromises (x : gmap nat Settled) (w : World) : World :=
  {| tunnels := tunnels w; clients := clients w; sockets := sockets w;
     timers := timers w; promises := x; nextClient := nextClient w;
     nextTimer := nextTimer w; nextPromise := nextPromise w; uuids := uuids w;
     uuidPos := uuidPos w; randoms := randoms w;
     randomPos := randomPos w; clock := clock w; trace := trace w |}.

Definition withNextClient (x : nat) (w : World) : World :=
  {| tunnels := tunnels w; clients := clients w; sockets := sockets w;
     timers := timers w; promises := promises w; nextClient := x;
     nextTimer := nextTimer w; nextPromise := nextPromise w; uuids := uuids w;
     uuidPos := uuidPos w; randoms := randoms w;
     randomPos := randomPos w; clock := clock w; trace := trace w |}.

Definition withNextTimer (x : nat) (w : World) : World :=
  {| tunnels := tunnels w; clients := clients w; sockets := sockets w;
     timers := timers w; promises := promises w; nextClient := nextClient w;
     nextTimer := x; nextPromise := nextPromise w; uuids := uuids w;
     uuidPos := uuidPos w; randoms := randoms w;
     randomPos := randomPos w; clock := clock w; trace := trace w |}.

Definition withNextPromise (x : nat) (w : World) : World :=
  {| tunnels := tunnels w; clients := clients w; sockets := sockets w;
     timers := timers w; promises := promises w; nextClient := nextClient w;
     nextTimer := nextTimer w; nextPromise := x; uuids := uuids w;
     uuidPos := uuidPos w; randoms := randoms w;
     randomPos := randomPos w; clock := clock w; trace := trace w |}.

Definition withUuidPos (x : nat) (w : World) : World :=
  {| tunnels := tunnels w; clients := clients w; sockets := sockets w;
     timers := timers w; promises := promises w; nextClient := nextClient w;
     nextTimer := nextTimer w; nextPromise := nextPromise w; uuids := uuids w;
     uuidPos := x; randoms := randoms w;
     randomPos := randomPos w; clock := clock w; trace := trace w |}.

Definition withRandomPos (x : nat) (w : World) : World :=
  {| tunnels := tunnels w; clients := clients w; sockets := sockets w;
     timers := timers w; promises := promises w; nextClient := nextClient w;
     nextTimer := nextTimer w; nextPromise := nextPromise w; uuids := uuids w;
     uuidPos := uuidPos w; randoms := randoms w;
     randomPos := x; clock := clock w; trace := trace w |}.

Definition withTrace (x : list Event) (w : World) : World :=
  {| tunnels := tunnels w; clients := clients w; sockets := sockets w;
     timers := timers w; promises := promises w; nextClient := nextClient w;
     nextTimer := nextTimer w; nextPromise := nextPromise w; uuids := uuids w;
     uuidPos := uuidPos w; randoms := randoms w;
     randomPos := randomPos w; clock := clock w; trace := x |}.

Definition withPending (x : list (string * PendingRequest)) (c : TunnelClient)
  : TunnelClient :=
  {| id := id c; subdomain := subdomain c; localPort := localPort c;
     ws := ws c; connectedAt := connectedAt c; requestCount := requestCount c;
     pendingRequests := x |}.

Definition withRequestCount (x : Z) (c : TunnelClient) : TunnelClient :=
  {| id := id c; subdomain := subdomain c; localPort := localPort c;
     ws := ws c; connectedAt := connectedAt c; requestCount := x;
     pendingRequests := pendingRequests c |}.

Definition withReadyState (x : ReadyState) (s : Socket) : Socket :=
  {| readyState := x; sendThrows := sendThrows s |}.

(** ** Primitive effects *)

Definition emit (e : Event) (w : World) : World :=
  withTrace (trace w ++ [e]) w.

(** [uuidv4()]. *)
Definition uuidv4 (w : World) : string * World :=
  (uuids w (uuidPos w), withUuidPos (S (uuidPos w)) w).

(** [Math.random()], as the index [Math.floor(Math.random() * 12)]
    makes of it. *)
Definition mathRandom (w : World) : nat * World :=
  (randoms w (randomPos w), withRandomPos (S (randomPos w)) w).

(** [new Promise(...)]: a promise not yet settled. *)
Definition newPromise (w : World) : nat * World :=
  (nextPromise w, withNextPromise (S (nextPromise w)) w).

(** [resolve(v)] and [reject(e)]: only the first call on a promise
    settles it. *)
Definition settle (p : nat) (v : Settled) (w : World) : World :=
  match promises w !! p with
  | Some _ => w
  | None => withPromises (<[p := v]> (promises w)) w
  end.

Definition resolve (p : nat) (r : TunnelResponse) (w : World) : World :=
  emit (EvResolve p r) (settle p (Resolved r) w).

Definition reject (p : nat) (e : Error) (w : World) : World :=
  emit (EvReject p e) (settle p (Rejected e) w).

(** [setTimeout(callback, ms)] and [clearTimeout(handle)]. *)
Definition setTimeout (cb : Timer) (w : World) : nat * World :=
  let t := nextTimer w in
  (t, emit (EvSetTimeout t (tm_delay cb))
        (withNextTimer (S t) (withTimers (<[t := cb]> (timers w)) w))).

Definition clearTimeout (t : nat) (w : World) : World :=
  emit (EvClearTimeout t) (withTimers (delete t (timers w)) w).

(** [ws.close(code, reason)] on an open socket: the closing handshake
    starts, the socket is [CLOSING]; its ['close'] event comes later. *)
Definition wsClose (s : nat) (code : Z) (reason : string) (w : World) : World :=
  emit (EvClose s code reason)
    (withSockets (fun s' => if decide (s' = s)
                            then withReadyState CLOSING (sockets w s')
                            else sockets w s') w).

(** [ws.send(JSON.stringify(frame))]: [Some message] when the call
    throws. *)
Definition wsSend (s : nat) (f : Frame) (w : World) : option string * World :=
  match sendThrows (sockets w s) with
  | Some message => (Some message, w)
  | None => (None, emit (EvSend s f) w)
  end.

(** Updates of the object [r] refers to. *)
Definition updClient (r : nat) (f : TunnelClient -> TunnelClient) (w : World)
  : World :=
  withClients (alter f r (clients w)) w.

Definition pendingSet (r : nat) (k : string) (p : PendingRequest) (w : World)
  : World :=
  emit (EvPendingSet r k)
    (updClient r (fun c => withPending (jsSet k p (pendingRequests c)) c) w).

Definition pendingDelete (r : nat) (k : string) (w : World) : World :=
  emit (EvPendingDelete r k)
    (updClient r (fun c => withPending (jsDelete k (pendingRequests c)) c) w).

Definition pendingClear (r : nat) (w : World) : World :=
  emit (EvPendingClear r) (updClient r (withPending []) w).

Definition tunnelsSet (k : string) (r : nat) (w : World) : World :=
  emit (EvTunnelsSet k r) (withTunnels (jsSet k r (tunnels w)) w).

Definition tunnelsDelete (k : string) (w : World) : World :=
  emit (EvTunnelsDelete k) (withTunnels (jsDelete k (tunnels w)) w).

(** ** [class TunnelRegistry] *)

(** [this.tunnels.get(subdomain)]: the reference and the object. *)
Definition get (subdomain : string) (w : World) : option (nat * TunnelClient) :=
  match jsGet subdomain (tunnels w) with
  | Some r =>
      match clients w !! r with
      | Some c => Some (r, c)
      | None => None
      end
  | None => None
  end.

(** The [for ... of client.pendingRequests] loop of [remove]. *)
Fixpoint rejectAll (l : list (string * PendingRequest)) (w : World) : World :=
  match l with
  | [] => w
  | (_, pending) :: rest =>
      rejectAll rest
        (reject (sink pending) TunnelDisconnected
           (clearTimeout (timeout pending) w))
  end.

Definition remove (subdomain : string) (w : World) : World :=
  match get subdomain w with
  | Some (r, client) =>
      let w1 := rejectAll (pendingRequests client) w in
      let w2 := pendingClear r w1 in
      let w3 := if isOpen (readyState (sockets w2 (ws client)))
                then wsClose (ws client) 1000 "Tunnel removed" w2
                else w2 in
      tunnelsDelete subdomain w3
  | None => w
  end.

Definition register (subdomain : string) (localPort : Z) (ws : nat) (w : World)
  : nat * TunnelClient * World :=
  let w1 := match get subdomain w with
            | Some _ => remove subdomain w
            | None => w
            end in
  let '(uuid, w2) := uuidv4 w1 in
  let client := {| id := uuid; subdomain := subdomain; localPort := localPort;
                   ws := ws; connectedAt := clock w2; requestCount := 0;
                   pendingRequests := [] |} in
  let r := nextClient w2 in
  let w3 := withNextClient (S r) (withClients (<[r := client]> (clients w2)) w2) in
  (r, client, tunnelsSet subdomain r w3).

(** The scan [for (const [subdomain, client] of this.tunnels)] up to
    the first client whose [ws] is the given object. *)
Fixpoint findByWs (s : nat) (h : gmap nat TunnelClient) (l : list (string * nat))
  : option (string * nat * TunnelClient) :=
  match l with
  | [] => None
  | (subdomain, r) :: rest =>
      match h !! r with
      | Some client =>
          if decide (ws client = s) then Some (subdomain, r, client)
          else findByWs s h rest
      | None => findByWs s h rest
      end
  end.


(** What the caller of [forwardRequest] holds when the call returns:
    the [async] function threw, or it returned the promise it built. *)
Inductive Forwarded :=
  | Threw (err : Error)
  | Awaiting (sink : nat).

Definition DEFAULT_TIMEOUT : Z := 30000.

Definition forwardRequest (subdomain : string) (request : TunnelRequest)
    (timeoutMs : Z) (w : World) : Forwarded * World :=
  match get subdomain w with
  | None => (Threw (NoTunnelFound subdomain), w)
  | Some (r, client) =>
      if negb (isOpen (readyState (sockets w (ws client)))) then
        (Threw TunnelNotOpen, remove subdomain w)
      else
        let '(p, w1) := newPromise w in
        let '(t, w2) :=
          setTimeout {| tm_client := r; tm_request := req_id request;
                        tm_sink := p; tm_delay := timeoutMs |} w1 in
        let w3 := pendingSet r (req_id request) {| sink := p; timeout := t |} w2 in
        match wsSend (ws client) (FrameRequest request) w3 with
        | (None, w4) =>
            (Awaiting p,
             updClient r (fun c => withRequestCount (requestCount c + 1) c) w4)
        | (Some message, w4) =>
            (* the executor threw: the promise is rejected with it *)
            (Awaiting p, reject p (SendFailed message) w4)
        end
  end.

(** The timer callback of [forwardRequest], run when timer [t] fires. *)
Definition fireTimer (t : nat) (w : World) : World :=
  match timers w !! t with
  | Some cb =>
      reject (tm_sink cb) RequestTimedOut
        (pendingDelete (tm_client cb) (tm_request cb)
           (withTimers (delete t (timers w)) w))
  | None => w
  end.

Definition handleResponse (s : nat) (response : TunnelResponse) (w : World)
  : World :=
  match findByWs s (clients w) (tunnels w) with
  | Some (_, r, client) =>
      match jsGet (res_id response) (pendingRequests client) with
      | Some pending =>
          resolve (sink pending) response
            (pendingDelete r (res_id response)
               (clearTimeout (timeout pending) w))
      | None => w
      end
  | None => w
  end.



End Registry.

(* ===================================================================== *)
(** * The tunnel session handler ([wsHandler.ts]) *)
(* ===================================================================== *)

Module Session.
Import Registry.

(** [message.subdomain] of a parsed frame: absent, a string, or a JSON
    value of another type (of which only the truthiness matters). *)
Inductive SubdomainField :=
  | FieldAbsent
  | FieldString (s : string)
  | FieldOther (truthy : bool).

(** A parsed [WSMessage], by its [type]. *)
Inductive WSMessage :=
  | MsgRegister (subdomain : SubdomainField)
  | MsgResponse (data : option TunnelResponse)
  | MsgPong
  | MsgOther (type : string).

(** How a handler ends: normally, or by an exception with a message. *)
Inductive Completion :=
  | Done
  | Raised (message : string).

Definition truthy (s : string) : bool := negb (String.eqb s EmptyString).

(** [generateSubdomain()]. *)
Definition generateSubdomain (w : World) : string * World :=
  let '(i, w1) := mathRandom w in
  let '(j, w2) := mathRandom w1 in
  let '(uuid, w3) := uuidv4 w2 in
  (Subdomain.generateSubdomainFrom i j uuid, w3).

(** [(message.subdomain as string) || requestedSubdomain ||
    generateSubdomain()]; [None] when the chosen value is not a string,
    on which [sanitizeSubdomain] throws a [TypeError]. *)
Definition chooseSubdomain (field : SubdomainField)
    (requestedSubdomain : option string) (w : World) : option string * World :=
  let fallback :=
    match requestedSubdomain with
    | Some h => if truthy h then (Some h, w)
                else let '(g, w') := generateSubdomain w in (Some g, w')
    | None => let '(g, w') := generateSubdomain w in (Some g, w')
    end in
  match field with
  | FieldString s => if truthy s then (Some s, w) else fallback
  | FieldOther true => (None, w)
  | FieldOther false => fallback
  | FieldAbsent => fallback
  end.

Definition handleMessage (domain : string) (ws : nat) (message : WSMessage)
    (requestedSubdomain : option string) (localPort : Z) (w : World)
  : Completion * World :=
  match message with
  | MsgRegister field =>
      match chooseSubdomain field requestedSubdomain w with
      | (None, w1) => (Raised "input.toLowerCase is not a function", w1)
      | (Some raw, w1) =>
          let subdomain := Subdomain.sanitizeSubdomain raw in
          let '(_, client, w2) := register subdomain localPort ws w1 in
          let tunnelUrl := "https://" +:+ subdomain +:+ "." +:+ domain in
          match wsSend ws (FrameTunnelReady tunnelUrl subdomain (id client)) w2 with
          | (None, w3) => (Done, w3)
          | (Some m, w3) => (Raised m, w3)
          end
      end
  | MsgResponse data =>
      match data with
      | Some responseData =>
          if truthy (res_id responseData)
          then (Done, handleResponse ws responseData w)
          else (Done, w)
      | None => (Done, w)
      end
  | MsgPong => (Done, w)
  | MsgOther _ => (Done, w)
  end.

(** [sendError]. *)
Definition sendError (ws : nat) (message : string) (w : World)
  : Completion * World :=
  if isOpen (readyState (sockets w ws)) then
    match wsSend ws (FrameError message) w with
    | (None, w') => (Done, w')
    | (Some m, w') => (Raised m, w')
    end
  else (Done, w).

(** The ['message'] listener: [parsed] is [None] when [JSON.parse]
    throws. *)
Definition onMessage (domain : string) (ws : nat) (parsed : option WSMessage)
    (requestedSubdomain : option string) (localPort : Z) (w : World)
  : Completion * World :=
  match parsed with
  | None => sendError ws "Invalid message format" w
  | Some message =>
      match handleMessage domain ws message requestedSubdomain localPort w with
      | (Done, w') => (Done, w')
      | (Raised _, w') => sendError ws "Invalid message format" w'
      end
  end.



End Session.

(* ===================================================================== *)
(** * The HTTP adapter ([proxy.ts]) *)
(* ===================================================================== *)

Module Proxy.
Import Registry.


(** [key.toLowerCase()].  The names of the drop-list and the names Node
    accepts are ASCII, so here too only the ASCII capitals matter. *)
Definition lowerString (s : string) : string :=
  string_of_list_ascii (Subdomain.toLowerCase (list_ascii_of_string s)).


(** What [res.end] or [res.json] was given: nothing, the buffer
    [Buffer.from(text, 'base64')], or a JSON error object. *)
Inductive Payload :=
  | NoData
  | Base64Decoded (text : string)
  | Json (error message subdomain : string).

(** The [ServerResponse] the adapter writes to.  Node keeps the
    outgoing headers under their lower-cased name, each with the name
    as it was given and the value. *)
Record Response := {
  status : Z;
  headers : list (string * (string * string));
  ended : option Payload;
}.





(** [name] between double quotes, as Node's error messages show it. *)
Definition quoted (name : string) : string :=
  String (ascii_of_nat 34) (name +:+ String (ascii_of_nat 34) EmptyString).






(** [res.end(data)] and [res.json(obj)], of which the payload is kept. *)
Definition endWith (p : Payload) (res : Response) : Response :=
  {| status := status res; headers := headers res; ended := Some p |}.




(** [message.includes(needle)]. *)
Fixpoint includes (message needle : string) : bool :=
  String.prefix needle message
  || match message with
     | EmptyString => false
     | String _ rest => includes rest needle
     end.

(** [res.status(code).json({ error, message, subdomain })]. *)
Definition sendJson (code : Z) (error message subdomain : string)
    (res : Response) : Response :=
  endWith (Json error message subdomain)
    {| status := code; headers := headers res; ended := ended res |}.

(** The [catch] block of [createProxyMiddleware]. *)
Definition sendError (subdomain message : string) (res : Response) : Response :=
  if includes message "timed out" then
    sendJson 504 "Gateway Timeout"
      "The developer's local server did not respond in time." subdomain res
  else if includes message "disconnected" || includes message "not open" then
    sendJson 502 "Bad Gateway"
      "The tunnel connection was lost. The developer may have disconnected."
      subdomain res
  else
    sendJson 502 "Bad Gateway" ("Failed to proxy request: " +:+ message)
      subdomain res.


(** A response nothing was written to yet. *)
Definition freshResponse : Response :=
  {| status := 200; headers := []; ended := None |}.

End Proxy.

(* ===================================================================== *)
(** * Vocabulary of the statements about labels *)
(* ===================================================================== *)

Module Label.
Import Subdomain.

(** The label grammar the specification's data model gives:
    [[a-z0-9-]{1..63}], no leading or trailing dash, no two dashes in a
    row. *)
Fixpoint noDoubleDash (l : list ascii) : bool :=
  match l with
  | c :: r =>
      match r with
      | d :: _ => negb (isDash c && isDash d) && noDoubleDash r
      | [] => true
      end
  | [] => true
  end.

Definition noEdgeDash (l : list ascii) : bool :=
  match l with
  | [] => true
  | c :: _ => negb (isDash c) && negb (isDash (List.last l c))
  end.

Definition validLabelChars (l : list ascii) : bool :=
  (1 <=? length l)%nat && (length l <=? LABEL_MAX)%nat
  && forallb inClass l && noEdgeDash l && noDoubleDash l.

Definition validLabel (s : string) : bool :=
  validLabelChars (list_ascii_of_string s).

(** Letters and digits (of either case). *)
Definition isAlnum (c : ascii) : bool := isLower c || isUpper c || isDigit c.

End Label.

(* ===================================================================== *)
(** * Inputs used by the examples below *)
(* ===================================================================== *)

(** Sixty-two letters, a dash and one more letter. *)
Definition dashAt63 : string :=
  "aaaaaaaaaaaaaaaaaaaaaaaaaaaaaaaaaaaaaaaaaaaaaaaaaaaaaaaaaaaaaa-b".

(** Sixty-four letters. *)
Definition letters64 : string :=
  "aaaaaaaaaaaaaaaaaaaaaaaaaaaaaaaaaaaaaaaaaaaaaaaaaaaaaaaaaaaaaaaa".

(** Sixty-four dashes. *)
Definition dashes64 : string :=
  "----------------------------------------------------------------".


(* ===================================================================== *)
(** * Vocabulary of the statements about the registry *)
(* ===================================================================== *)

Module Spec.
Import Registry.

(** The events one call added to the trace. *)
Definition newEvents (w w' : World) : list Event :=
  drop (length (trace w)) (trace w').

(** The events of the loop of [remove] over a pending table: for each
    waiter, in table order, its timer is cleared and its promise
    rejected. *)
Definition rejections (l : list (string * PendingRequest)) : list Event :=
  flat_map (fun kp => [EvClearTimeout (timeout (snd kp));
                       EvReject (sink (snd kp)) TunnelDisconnected]) l.

(** The close of [remove], when the channel is still open. *)
Definition closing (c : TunnelClient) (w : World) : list Event :=
  if isOpen (readyState (sockets w (ws c)))
  then [EvClose (ws c) 1000 "Tunnel removed"]
  else [].

(** All the events of the eviction of entry [c], held as object [r]
    under [subdomain]. *)
Definition eviction (subdomain : string) (r : nat) (c : TunnelClient)
    (w : World) : list Event :=
  rejections (pendingRequests c) ++ [EvPendingClear r] ++ closing c w
  ++ [EvTunnelsDelete subdomain].

(** The calls that complete a promise. *)
Definition isCompletion (e : Event) : bool :=
  match e with
  | EvResolve _ _ | EvReject _ _ => true
  | _ => false
  end.

(** The request frames handed to a channel. *)
Definition isRequestSend (e : Event) : bool :=
  match e with
  | EvSend _ (FrameRequest _) => true
  | _ => false
  end.

(** The pending table of the object [r]. *)
Definition pendingOf (r : nat) (w : World) : list (string * PendingRequest) :=
  match clients w !! r with
  | Some c => pendingRequests c
  | None => []
  end.

(** The client a frame arriving on channel [s] is attributed to. *)
Definition owner (s : nat) (w : World) : option (string * nat * TunnelClient) :=
  findByWs s (clients w) (tunnels w).

End Spec.

(* ===================================================================== *)
(** * A concrete world for the examples *)
(* ===================================================================== *)

Module Sample.
Import Registry.

Definition openSocket : Socket := {| readyState := OPEN; sendThrows := None |}.

(** An open socket whose [send] throws. *)
Definition brokenSocket : Socket :=
  {| readyState := OPEN; sendThrows := Some "write EPIPE" |}.

(** Tunnel ["a"] on channel 1, with two requests in flight. *)
Definition clientA : TunnelClient :=
  {| id := "0b0e7d3a-5c1f-4c55-9a57-2f4d1c7e9a10"; subdomain := "a";
     localPort := 3000; ws := 1; connectedAt := 1700000000000;
     requestCount := 2;
     pendingRequests := [("req-1", {| sink := 0; timeout := 0 |});
                         ("req-2", {| sink := 1; timeout := 1 |})] |}.

(** Tunnel ["b"] on channel 2, idle. *)
Definition clientB : TunnelClient :=
  {| id := "7a3f0c52-1d9e-4e0b-8b6a-61c2f90d4e77"; subdomain := "b";
     localPort := 8080; ws := 2; connectedAt := 1700000000500;
     requestCount := 0; pendingRequests := [] |}.

Definition sampleUuids (n : nat) : string :=
  String (ascii_of_nat (97 + n mod 6)) "4c1e2f0-93ab-4d6e-b1f7-0e5a9c3d2b48".

Definition world0 : World :=
  {| tunnels := [("a", 0); ("b", 1)];
     clients := <[0 := clientA]> (<[1 := clientB]> ∅);
     sockets := fun _ => openSocket;
     timers := <[0 := {| tm_client := 0; tm_request := "req-1"; tm_sink := 0;
                         tm_delay := 30000 |}]>
               (<[1 := {| tm_client := 0; tm_request := "req-2"; tm_sink := 1;
                          tm_delay := 30000 |}]> ∅);
     promises := ∅;
     nextClient := 2; nextTimer := 2; nextPromise := 2;
     uuids := sampleUuids; uuidPos := 0;
     randoms := fun n => n; randomPos := 0;
     clock := 1700000001000;
     trace := [] |}.

(** The same world, the transport of every channel refusing writes. *)
Definition world0Broken : World := withSockets (fun _ => brokenSocket) world0.

Definition request3 : TunnelRequest :=
  {| req_id := "req-3"; req_method := "GET"; req_path := "/health";
     req_headers := [("host", "a.example.com")]; req_body := None |}.

Definition response1 : TunnelResponse :=
  {| res_id := "req-1"; statusCode := 200;
     res_headers := [("content-type", "text/plain")];
     res_body := Some "T0s=" |}.

(** A response whose id no waiter has. *)
Definition response9 : TunnelResponse :=
  {| res_id := "req-9"; statusCode := 200; res_headers := [];
     res_body := None |}.

End Sample.

(* ===================================================================== *)
(** * Vocabulary of the statements about the adapter *)
(* ===================================================================== *)

Module ProxySpec.
Import Registry Proxy.





(** How Node stores a header. *)
Definition stored (kv : string * string) : string * (string * string) :=
  (lowerString (fst kv), kv).



End ProxySpec.

(* ===================================================================== *)
(** * The worlds the program can reach *)
(* ===================================================================== *)

Module Reach.
Import Registry.


(** The registry at start-up. *)
Definition initialWorld (sockets : nat -> Socket) (uuids : nat -> string)
    (randoms : nat -> nat) (clock : Z) : World :=
  {| tunnels := []; clients := ∅; sockets := sockets; timers := ∅;
     promises := ∅; nextClient := 0; nextTimer := 0; nextPromise := 0;
     uuids := uuids; uuidPos := 0; randoms := randoms; randomPos := 0;
     clock := clock; trace := [] |}.



End Reach.

(* ===================================================================== *)
(** * The HTTP adapter, before the request is forwarded ([proxy.ts]) *)
(* ===================================================================== *)

Module Adapter.
Import Registry Proxy.

Definition isChar (x : ascii) (c : ascii) : bool := Ascii.eqb c x.

(** The character [x] does not occur in [l]. *)
Definition noChar (x : ascii) (l : list ascii) : Prop :=
  existsb (isChar x) l = false.

(** [host.split(':')[0]]: what stands before the first colon. *)
Fixpoint beforeColon (l : list ascii) : list ascii :=
  match l with
  | [] => []
  | c :: r => if isChar ":" c then [] else c :: beforeColon r
  end.

(** [s.endsWith(suffix)]. *)
Definition endsWith (s suffix : list ascii) : bool :=
  (length suffix <=? length s)%nat
  && bool_decide (skipn (length s - length suffix) s = suffix).

(** [s.slice(0, -k)] for a positive [k]. *)
Definition sliceOff (k : nat) (s : list ascii) : list ascii :=
  firstn (length s - k) s.

(** [extractSubdomain(host, domain)]. *)
Definition extractChars (host domain : list ascii) : option (list ascii) :=
  let hostWithoutPort := beforeColon host in
  if negb (endsWith hostWithoutPort ("."%char :: domain)) then None
  else
    let subdomain := sliceOff (length domain + 1) hostWithoutPort in
    match subdomain with
    | [] => None
    | _ :: _ => if existsb (isChar ".") subdomain then None else Some subdomain
    end.

Definition extractSubdomain (host domain : string) : option string :=
  option_map string_of_list_ascii
    (extractChars (list_ascii_of_string host) (list_ascii_of_string domain)).

(** A value of Express' [req.headers]: [string | string[] | undefined]. *)
Inductive HeaderValue :=
  | HvUndefined
  | HvString (s : string)
  | HvList (l : list string).

(** [if (value)]: [undefined] and the empty string are falsy, an array
    is truthy. *)
Definition truthyValue (v : HeaderValue) : bool :=
  match v with
  | HvUndefined => false
  | HvString s => Session.truthy s
  | HvList _ => true
  end.

(** [value.join(', ')]. *)
Fixpoint join (l : list string) : string :=
  match l with
  | [] => EmptyString
  | [s] => s
  | s :: r => s +:+ ", " +:+ join r
  end.

(** [Array.isArray(value) ? value.join(', ') : value]. *)
Definition flatValue (v : HeaderValue) : string :=
  match v with
  | HvList l => join l
  | HvString s => s
  | HvUndefined => EmptyString
  end.

(** What one entry contributes to the result. *)
Definition flatEntry (kv : string * HeaderValue) : option (string * string) :=
  if truthyValue (snd kv) then Some (fst kv, flatValue (snd kv)) else None.

(** The loop of [flattenHeaders] over [Object.entries(headers)],
    [result] being the object built so far. *)
Fixpoint flattenInto (entries : list (string * HeaderValue))
    (result : list (string * string)) : list (string * string) :=
  match entries with
  | [] => result
  | (key, value) :: rest =>
      flattenInto rest
        (if truthyValue value then jsSet key (flatValue value) result
         else result)
  end.

Definition flattenHeaders (headers : list (string * HeaderValue))
  : list (string * string) :=
  flattenInto headers [].

(** [req.url.substring(req.url.indexOf('?'))], for a [url] that
    includes a question mark; the empty string otherwise. *)
Fixpoint queryString (url : list ascii) : list ascii :=
  match url with
  | [] => []
  | c :: r => if isChar "?" c then url else queryString r
  end.

(** The [path] of the path-based adapter: [rest] is [req.params[0]]. *)
Definition pathBasedPath (rest : option string) (url : string) : string :=
  let actualPath :=
    match rest with
    | Some p => if Session.truthy p then "/" +:+ p else "/"
    | None => "/"
    end in
  actualPath +:+ string_of_list_ascii (queryString (list_ascii_of_string url)).

(** What the adapters read of an Express request; [subdomainParam] is
    [req.params.subdomain], or its first element when it is an array. *)
Record HttpRequest := {
  method : string;
  url : string;
  originalUrl : option string;
  reqHeaders : list (string * HeaderValue);
  subdomainParam : option string;
  restParam : option string;          (* [req.params[0]] *)
}.

(** [req.headers.host || '']; Node gives this header as one string. *)
Definition hostOf (req : HttpRequest) : string :=
  match jsGet "host" (reqHeaders req) with
  | Some (HvString h) => h
  | _ => EmptyString
  end.

(** The guard of the landing page route of [server.ts]: the page is
    sent when the host without its port is the domain, [localhost] or
    [127.0.0.1]; any other host is passed on to the next route. *)
Definition isRootHost (host domain : string) : bool :=
  let hostWithoutPort :=
    string_of_list_ascii (beforeColon (list_ascii_of_string host)) in
  negb (negb (String.eqb hostWithoutPort domain)
        && negb (String.eqb hostWithoutPort "localhost")
        && negb (String.eqb hostWithoutPort "127.0.0.1")).

(** How far an adapter gets before it awaits the body: it hands the
    request on to the next route, answers it, or has built the tunnel
    request but for the body. *)
Inductive Routed :=
  | CallNext
  | Replied (res : Response)
  | Reading (subdomain : string) (request : TunnelRequest).

(** [createProxyMiddleware], up to [await readBody(req)]. *)
Definition proxyMiddleware (domain : string) (req : HttpRequest)
    (res : Response) (w : World) : Routed * World :=
  match extractSubdomain (hostOf req) domain with
  | None => (CallNext, w)
  | Some subdomain =>
      match get subdomain w with
      | None =>
          (Replied (sendJson 502 "Tunnel Not Found"
                      ("No active tunnel for " +:+ quoted (subdomain +:+ "." +:+ domain)
                       +:+ ". The developer may have disconnected.")
                      subdomain res), w)
      | Some _ =>
          let '(uuid, w1) := uuidv4 w in
          (Reading subdomain
             {| req_id := uuid; req_method := method req;
                req_path := match originalUrl req with
                            | Some u => if Session.truthy u then u else url req
                            | None => url req
                            end;
                req_headers := flattenHeaders (reqHeaders req);
                req_body := None |}, w1)
      end
  end.

(** [createPathBasedProxy], up to [await readBody(req)].  The object of
    the 400 answer has an [error] field only: the other two fields of
    [Json] are empty there. *)
Definition pathBasedProxy (req : HttpRequest) (res : Response) (w : World)
  : Routed * World :=
  match subdomainParam req with
  | None =>
      (Replied (sendJson 400 "Missing subdomain parameter" EmptyString
                  EmptyString res), w)
  | Some subdomain =>
      if negb (Session.truthy subdomain) then
        (Replied (sendJson 400 "Missing subdomain parameter" EmptyString
                    EmptyString res), w)
      else
        match get subdomain w with
        | None =>
            (Replied (sendJson 502 "Tunnel Not Found"
                        ("No active tunnel for " +:+ quoted subdomain
                         +:+ ". The developer may have disconnected.")
                        subdomain res), w)
        | Some _ =>
            let '(uuid, w1) := uuidv4 w in
            (Reading subdomain
               {| req_id := uuid; req_method := method req;
                  req_path := pathBasedPath (restParam req) (url req);
                  req_headers := flattenHeaders (reqHeaders req);
                  req_body := None |}, w1)
        end
  end.

(** The rest of either adapter once [readBody] resolved with [body]:
    the call of [registry.forwardRequest] with the default timeout. *)
Definition forwardWithBody (subdomain : string) (request : TunnelRequest)
    (body : option string) (w : World) : Forwarded * World :=
  forwardRequest subdomain
    {| req_id := req_id request; req_method := req_method request;
       req_path := req_path request; req_headers := req_headers request;
       req_body := body |} DEFAULT_TIMEOUT w.

End Adapter.

(* ===================================================================== *)
(** * Vocabulary of the further statements *)
(* ===================================================================== *)

Module Shape.
Import Subdomain.

(** The first, and the last, character is a dash. *)
Definition headDash (l : list ascii) : bool :=
  match l with
  | c :: _ => isDash c
  | [] => false
  end.

Fixpoint lastDash (l : list ascii) : bool :=
  match l with
  | [] => false
  | [c] => isDash c
  | _ :: r => lastDash r
  end.

(** Lower-case hexadecimal digits, of which a [uuidv4()] starts with
    eight. *)
Definition isHex (c : ascii) : bool :=
  isDigit c || ((97 <=? code c)%N && (code c <=? 102)%N).

End Shape.

(* ===================================================================== *)
(** * The shape of the worlds the program can reach *)
(* ===================================================================== *)

Module Inv.
Import Registry.


End Inv.

(* ===================================================================== *)
(** * Runs of the registry from start-up *)
(* ===================================================================== *)

Module Run.
Import Registry Adapter.

(** The registry at start-up, every channel open and accepting
    writes. *)
Definition start : World :=
  Reach.initialWorld (fun _ => Sample.openSocket) Sample.sampleUuids
    (fun n => n) 1700000000000.

(** Channel 1 registered ["a"]. *)
Definition oneTunnel : World := snd (register "a" 3000 1 start).

(** The object of that tunnel. *)
Definition tunnelA : TunnelClient :=
  {| id := Sample.sampleUuids 0; subdomain := "a"; localPort := 3000;
     ws := 1; connectedAt := 1700000000000; requestCount := 0;
     pendingRequests := [] |}.




(** An HTTP request for tunnel ["a"], as either adapter sees it. *)
Definition healthRequest : HttpRequest :=
  {| method := "GET"; url := "/health?full=1";
     originalUrl := Some "/health?full=1";
     reqHeaders := [("host", HvString "a.example.com");
                    ("accept", HvList ["text/html"; "*/*"]);
                    ("x-empty", HvString EmptyString)];
     subdomainParam := Some "a"; restParam := Some "health" |}.

(** The same start-up, every channel closed. *)
Definition closedSocket : Socket := {| readyState := CLOSED; sendThrows := None |}.

(** Tunnel ["a"] after the transport closed the channels. *)
Definition hungUp : World := withSockets (fun _ => closedSocket) oneTunnel.

End Run.

Local Open Scope list_scope.

(* ===================================================================== *)
(** * Properties of the subdomain utilities *)
(* ===================================================================== *)

Section SubdomainFacts.
Import Subdomain Label.

Lemma length_string_of_list (l : list ascii) :
  String.length (string_of_list_ascii l) = length l.
Proof. induction l as [|c l IH]; simpl; [reflexivity | now rewrite IH]. Qed.

Lemma length_list_of_string (s : string) :
  length (list_ascii_of_string s) = String.length s.
Proof. induction s as [|c s IH]; simpl; [reflexivity | now rewrite IH]. Qed.

(** Lower-casing a letter or digit gives a character of the class that
    is not a dash. *)
Lemma toLowerChar_alnum (c : ascii) :
  isAlnum c = true ->
  inClass (toLowerChar c) = true /\ isDash (toLowerChar c) = false.
Proof.
  destruct c as [[] [] [] [] [] [] [] []]; vm_compute; intros H;
    solve [discriminate H | split; reflexivity].
Qed.

(** Any other character is, lower-cased, a dash or outside the class:
    the first [replace] leaves a dash in its place. *)
Lemma toLowerChar_not_alnum (c : ascii) :
  isAlnum c = false ->
  (if inClass (toLowerChar c) then toLowerChar c else dash) = dash.
Proof.
  destruct c as [[] [] [] [] [] [] [] []]; vm_compute; intros H;
    solve [discriminate H | reflexivity].
Qed.

Lemma collapseDashes_no_dash (l : list ascii) :
  forallb (fun c => negb (isDash c)) l = true -> collapseDashes l = l.
Proof.
  induction l as [|c l IH]; simpl; [reflexivity |].
  intros H. apply andb_prop in H as [Hc Hl].
  apply negb_true_iff in Hc. rewrite Hc, (IH Hl). reflexivity.
Qed.

Lemma dropTrailingDash_no_dash (l : list ascii) :
  forallb (fun c => negb (isDash c)) l = true -> dropTrailingDash l = l.
Proof.
  induction l as [|c l IH]; simpl; [reflexivity |].
  intros H. apply andb_prop in H as [Hc Hl].
  apply negb_true_iff in Hc. rewrite Hc.
  destruct l as [|d l']; [reflexivity |]. now rewrite (IH Hl).
Qed.

Lemma trimEdges_no_dash (l : list ascii) :
  forallb (fun c => negb (isDash c)) l = true -> trimEdges l = l.
Proof.
  intros H. unfold trimEdges.
  assert (dropLeadingDash l = l) as ->.
  { destruct l as [|c l']; [reflexivity |]. simpl in *.
    apply andb_prop in H as [Hc _]. apply negb_true_iff in Hc. now rewrite Hc. }
  now apply dropTrailingDash_no_dash.
Qed.

Lemma normalize_alnum (l : list ascii) :
  forallb Label.isAlnum l = true -> normalize l = toLowerCase l.
Proof.
  intros H. unfold normalize.
  assert (replaceInvalid (toLowerCase l) = toLowerCase l) as ->.
  { induction l as [|c l IH]; simpl in *; [reflexivity |].
    apply andb_prop in H as [Hc Hl].
    destruct (toLowerChar_alnum c Hc) as [-> _]. now rewrite (IH Hl). }
  assert (forallb (fun c => negb (isDash c)) (toLowerCase l) = true) as Hnd.
  { induction l as [|c l IH]; simpl in *; [reflexivity |].
    apply andb_prop in H as [Hc Hl].
    destruct (toLowerChar_alnum c Hc) as [_ ->]. simpl. now apply IH. }
  rewrite (collapseDashes_no_dash _ Hnd). now apply trimEdges_no_dash.
Qed.

(** A run of dashes collapses to one dash, which the trim removes. *)
Lemma collapseDashes_repeat (n : nat) :
  collapseDashes (repeat dash (S n)) = [dash].
Proof. induction n as [|n IH]; [reflexivity |]. exact IH. Qed.

Lemma replaceInvalid_not_alnum (l : list ascii) :
  forallb (fun c => negb (Label.isAlnum c)) l = true ->
  replaceInvalid (toLowerCase l) = repeat dash (length l).
Proof.
  induction l as [|c l IH]; simpl; [reflexivity |].
  intros H. apply andb_prop in H as [Hc Hl]. apply negb_true_iff in Hc.
  rewrite (toLowerChar_not_alnum c Hc). now rewrite (IH Hl).
Qed.

Lemma sanitizeSubdomain_not_alnum (s : string) :
  forallb (fun c => negb (Label.isAlnum c)) (list_ascii_of_string s) = true ->
  sanitizeSubdomain s = EmptyString.
Proof.
  intros H. unfold sanitizeSubdomain, sanitizeChars, normalize.
  rewrite (replaceInvalid_not_alnum _ H).
  destruct (length (list_ascii_of_string s)) as [|n]; [reflexivity |].
  now rewrite collapseDashes_repeat.
Qed.

End SubdomainFacts.

Example sanitize_hello :
  Subdomain.sanitizeSubdomain "Hello World!!" = "hello-world".
Proof. reflexivity. Qed.

Example sanitize_foo_bar :
  Subdomain.sanitizeSubdomain "--foo__bar--" = "foo-bar".
Proof. reflexivity. Qed.

(** C8.  [sanitizeSubdomain] is not idempotent: it trims the dashes at
    the edges before it cuts the string at 63 characters, so the cut can
    leave a dash at the end, which a second pass then removes.  On
    sixty-two letters followed by ["-b"] the first pass keeps the dash
    as its 63rd character and the second pass drops it. *)
Theorem sanitize_twice_differs :
  Subdomain.sanitizeSubdomain dashAt63
    = String.substring 0 62 dashAt63 +:+ "-"
  /\ Subdomain.sanitizeSubdomain (Subdomain.sanitizeSubdomain dashAt63)
    = String.substring 0 62 dashAt63
  /\ Subdomain.sanitizeSubdomain (Subdomain.sanitizeSubdomain dashAt63)
    <> Subdomain.sanitizeSubdomain dashAt63
  /\ Label.validLabel (Subdomain.sanitizeSubdomain dashAt63) = false.
Proof. repeat split; try reflexivity. vm_compute. discriminate. Qed.

(** C9 as stated fails: sixty-four dashes are longer than 63 characters
    and sanitize to the empty string. *)
Lemma sanitize_long_input_short_output :
  63 < String.length dashes64
  /\ String.length (Subdomain.sanitizeSubdomain dashes64) <> 63.
Proof. split; [vm_compute; lia | vm_compute; discriminate]. Qed.

(** C9, amended.  The result of [sanitizeSubdomain] never exceeds 63
    characters; it has exactly 63 if and only if the lower-cased,
    replaced, collapsed and trimmed input has at least 63; this is the
    case for every input of more than 63 characters that are all
    letters or digits. *)
Theorem sanitize_length (x : string) :
  String.length (Subdomain.sanitizeSubdomain x) <= 63
  /\ (String.length (Subdomain.sanitizeSubdomain x) = 63
      <-> 63 <= length (Subdomain.normalize (list_ascii_of_string x)))
  /\ (63 < String.length x ->
      forallb Label.isAlnum (list_ascii_of_string x) = true ->
      String.length (Subdomain.sanitizeSubdomain x) = 63).
Proof.
  unfold Subdomain.sanitizeSubdomain, Subdomain.sanitizeChars.
  rewrite length_string_of_list, length_firstn. unfold Subdomain.LABEL_MAX.
  split; [lia |]. split; [lia |].
  intros Hlen Hal. rewrite (normalize_alnum _ Hal).
  unfold Subdomain.toLowerCase. rewrite length_map, length_list_of_string. lia.
Qed.

Lemma sanitize_length_witness :
  63 < String.length letters64
  /\ forallb Label.isAlnum (list_ascii_of_string letters64) = true
  /\ String.length (Subdomain.sanitizeSubdomain letters64) = 63.
Proof.
  split; [vm_compute; lia |]. split; [reflexivity |].
  apply (proj2 (proj2 (sanitize_length letters64)));
    [vm_compute; lia | reflexivity].
Defined.

(* ===================================================================== *)
(** * Properties of the registry *)
(* ===================================================================== *)

Section JsMapFacts.
Import Registry.
Context {V : Type}.
Implicit Types (m : list (string * V)) (k : string) (v : V).

Lemma jsGet_jsSet_eq k v m : jsGet k (jsSet k v m) = Some v.
Proof.
  induction m as [|[k' v'] m IH]; simpl.
  - now rewrite decide_True.
  - destruct (decide (k = k')) as [->|Hne]; simpl.
    + now rewrite decide_True.
    + now rewrite decide_False.
Qed.


Lemma jsGet_jsDelete_eq k m : jsGet k (jsDelete k m) = None.
Proof.
  induction m as [|[k' v'] m IH]; simpl; [reflexivity |].
  destruct (decide (k = k')) as [->|Hne]; simpl; [exact IH |].
  now rewrite decide_False.
Qed.

Lemma jsGet_jsDelete_ne k k' m : k <> k' -> jsGet k (jsDelete k' m) = jsGet k m.
Proof.
  intros Hne. induction m as [|[k0 v0] m IH]; simpl; [reflexivity |].
  destruct (decide (k' = k0)) as [->|Hne']; simpl.
  - now rewrite decide_False.
  - destruct (decide (k = k0)); [reflexivity | exact IH].
Qed.


Lemma jsDelete_absent k m : jsGet k m = None -> jsDelete k m = m.
Proof.
  induction m as [|[k' v'] m IH]; simpl; [reflexivity |].
  destruct (decide (k = k')); [discriminate |]. intros H. now rewrite IH.
Qed.

End JsMapFacts.

Section RegistryFacts.
Import Registry Spec.

Lemma newEvents_app (w w' : World) (evs : list Event) :
  trace w' = trace w ++ evs -> newEvents w w' = evs.
Proof. intros H. unfold newEvents. rewrite H. apply drop_app_length. Qed.

(** [settle] touches the settled promises only. *)
Lemma settle_frame p v w :
  tunnels (settle p v w) = tunnels w /\ clients (settle p v w) = clients w
  /\ sockets (settle p v w) = sockets w /\ timers (settle p v w) = timers w
  /\ trace (settle p v w) = trace w /\ nextPromise (settle p v w) = nextPromise w
  /\ nextTimer (settle p v w) = nextTimer w
  /\ nextClient (settle p v w) = nextClient w
  /\ uuidPos (settle p v w) = uuidPos w /\ uuids (settle p v w) = uuids w
  /\ clock (settle p v w) = clock w.
Proof. unfold settle. destruct (promises w !! p); simpl; repeat split. Qed.

Lemma settle_settled p v w s x :
  promises w !! s = Some x -> promises (settle p v w) !! s = Some x.
Proof.
  intros H. unfold settle. destruct (promises w !! p) eqn:E; [exact H |].
  simpl. rewrite lookup_insert_ne; [exact H | congruence].
Qed.

Lemma settle_unsettled p v w :
  promises w !! p = None -> promises (settle p v w) !! p = Some v.
Proof. intros H. unfold settle. rewrite H. simpl. apply lookup_insert_eq. Qed.

Lemma settle_other p v w s :
  p <> s -> promises (settle p v w) !! s = promises w !! s.
Proof.
  intros Hne. unfold settle. destruct (promises w !! p); [reflexivity |].
  simpl. now rewrite lookup_insert_ne.
Qed.

(** What the loop of [remove] changes: the trace, the armed timers and
    the settled promises. *)
Ltac step_reject w p :=
  unfold reject, clearTimeout, emit; simpl;
  destruct (settle_frame (sink p) (Rejected TunnelDisconnected)
              (withTrace (trace w ++ [EvClearTimeout (timeout p)])
                 (withTimers (delete (timeout p) (timers w)) w)))
    as (Htu & Hcl & Hso & Hti & Htr & Hnp & Hnt & Hnc & Hup & Huu & Hck).

Lemma rejectAll_tunnels l : forall w, tunnels (rejectAll l w) = tunnels w.
Proof.
  induction l as [|[k p] l IH]; intros w; simpl; [reflexivity |].
  rewrite IH. step_reject w p. exact Htu.
Qed.

Lemma rejectAll_clients l : forall w, clients (rejectAll l w) = clients w.
Proof.
  induction l as [|[k p] l IH]; intros w; simpl; [reflexivity |].
  rewrite IH. step_reject w p. exact Hcl.
Qed.

Lemma rejectAll_sockets l : forall w, sockets (rejectAll l w) = sockets w.
Proof.
  induction l as [|[k p] l IH]; intros w; simpl; [reflexivity |].
  rewrite IH. step_reject w p. exact Hso.
Qed.

Lemma rejectAll_counters l : forall w,
  nextClient (rejectAll l w) = nextClient w
  /\ nextTimer (rejectAll l w) = nextTimer w
  /\ nextPromise (rejectAll l w) = nextPromise w
  /\ uuidPos (rejectAll l w) = uuidPos w /\ uuids (rejectAll l w) = uuids w
  /\ clock (rejectAll l w) = clock w.
Proof.
  induction l as [|[k p] l IH]; intros w; simpl; [repeat split |].
  destruct (IH (reject (sink p) TunnelDisconnected (clearTimeout (timeout p) w)))
    as (-> & -> & -> & -> & -> & ->).
  step_reject w p. repeat split; assumption.
Qed.

Lemma rejectAll_trace l : forall w,
  trace (rejectAll l w) = trace w ++ rejections l.
Proof.
  induction l as [|[k p] l IH]; intros w; simpl.
  - now rewrite app_nil_r.
  - rewrite IH. step_reject w p. rewrite Htr. simpl.
    rewrite <- !app_assoc. reflexivity.
Qed.

Lemma rejectAll_timers_in l : forall w k p,
  In (k, p) l -> timers (rejectAll l w) !! timeout p = None.
Proof.
  assert (forall l w t, timers w !! t = None -> timers (rejectAll l w) !! t = None)
    as Hkeep.
  { clear. induction l as [|[k p] l IH]; intros w t H; simpl; [exact H |].
    apply IH. step_reject w p. rewrite Hti. simpl.
    destruct (decide (timeout p = t)) as [->|Hne].
    - apply lookup_delete_eq.
    - now rewrite lookup_delete_ne. }
  induction l as [|[k0 p0] l IH]; intros w k p Hin; simpl; [destruct Hin |].
  destruct Hin as [[= -> ->]|Hin]; [| now apply (IH _ k)].
  apply Hkeep. step_reject w p. rewrite Hti. simpl. apply lookup_delete_eq.
Qed.


Lemma rejectAll_settled l : forall w s x,
  promises w !! s = Some x -> promises (rejectAll l w) !! s = Some x.
Proof.
  induction l as [|[k p] l IH]; intros w s x H; simpl; [exact H |].
  apply IH. unfold reject, clearTimeout, emit. simpl.
  apply settle_settled. exact H.
Qed.

Lemma rejectAll_rejects l : forall w k p,
  In (k, p) l -> promises w !! sink p = None ->
  promises (rejectAll l w) !! sink p = Some (Rejected TunnelDisconnected).
Proof.
  induction l as [|[k0 p0] l IH]; intros w k p Hin Hun; simpl; [destruct Hin |].
  set (w1 := reject (sink p0) TunnelDisconnected (clearTimeout (timeout p0) w)).
  destruct (decide (sink p0 = sink p)) as [Heq|Hne].
  - apply rejectAll_settled. unfold w1, reject, clearTimeout, emit. simpl.
    rewrite Heq. apply settle_unsettled. exact Hun.
  - destruct Hin as [[= -> ->]|Hin]; [congruence |].
    apply (IH _ k); [exact Hin |].
    unfold w1, reject, clearTimeout, emit. simpl.
    rewrite settle_other by exact Hne. exact Hun.
Qed.


(** ** [remove] *)

Lemma get_Some subdomain w r c :
  get subdomain w = Some (r, c) <->
  jsGet subdomain (tunnels w) = Some r /\ clients w !! r = Some c.
Proof.
  unfold get. destruct (jsGet subdomain (tunnels w)) as [r'|]; [| split; [discriminate | intros [? _]; discriminate]].
  destruct (clients w !! r') as [c'|] eqn:E.
  - split; [intros [= -> ->]; auto | intros [[= ->] ?]; congruence].
  - split; [discriminate | intros [[= ->] ?]; congruence].
Qed.


Section RemovePresent.
Variables (subdomain : string) (w : World) (r : nat) (c : TunnelClient).
Hypothesis Hget : get subdomain w = Some (r, c).

Ltac open_remove :=
  unfold remove; rewrite Hget; cbv zeta;
  unfold tunnelsDelete, pendingClear, updClient, emit; simpl;
  rewrite ?rejectAll_sockets;
  destruct (isOpen (readyState (sockets w (ws c)))) eqn:Hopen;
  unfold wsClose, emit; simpl.

Lemma remove_trace : trace (remove subdomain w) = trace w ++ eviction subdomain r c w.
Proof.
  unfold eviction, closing. open_remove; rewrite rejectAll_trace;
    rewrite <- ?app_assoc; reflexivity.
Qed.

Lemma remove_tunnels : tunnels (remove subdomain w) = jsDelete subdomain (tunnels w).
Proof. open_remove; now rewrite rejectAll_tunnels. Qed.

Lemma remove_clients :
  clients (remove subdomain w) = alter (withPending []) r (clients w).
Proof. open_remove; now rewrite rejectAll_clients. Qed.

Lemma remove_sockets_other s :
  s <> ws c -> sockets (remove subdomain w) s = sockets w s.
Proof.
  intros Hne. open_remove; rewrite ?rejectAll_sockets; [| reflexivity].
  now rewrite decide_False.
Qed.

Lemma remove_sockets_open :
  readyState (sockets w (ws c)) = OPEN ->
  readyState (sockets (remove subdomain w) (ws c)) = CLOSING.
Proof.
  intros Ho. open_remove.
  - now rewrite decide_True.
  - rewrite Ho in Hopen. discriminate.
Qed.

Lemma remove_sockets_not_open :
  readyState (sockets w (ws c)) <> OPEN ->
  sockets (remove subdomain w) = sockets w.
Proof.
  intros Ho. open_remove.
  - destruct (readyState (sockets w (ws c))); try discriminate. congruence.
  - now rewrite rejectAll_sockets.
Qed.

Lemma remove_timers_in k p :
  In (k, p) (pendingRequests c) ->
  timers (remove subdomain w) !! timeout p = None.
Proof. intros Hin. open_remove; now apply (rejectAll_timers_in _ _ k). Qed.


Lemma remove_rejects k p :
  In (k, p) (pendingRequests c) -> promises w !! sink p = None ->
  promises (remove subdomain w) !! sink p = Some (Rejected TunnelDisconnected).
Proof. intros Hin Hun. open_remove; now apply (rejectAll_rejects _ _ k). Qed.

Lemma remove_settled s x :
  promises w !! s = Some x -> promises (remove subdomain w) !! s = Some x.
Proof. intros H. open_remove; now apply rejectAll_settled. Qed.

Lemma remove_counters :
  nextClient (remove subdomain w) = nextClient w
  /\ nextTimer (remove subdomain w) = nextTimer w
  /\ nextPromise (remove subdomain w) = nextPromise w
  /\ uuidPos (remove subdomain w) = uuidPos w
  /\ uuids (remove subdomain w) = uuids w
  /\ clock (remove subdomain w) = clock w.
Proof. open_remove; apply rejectAll_counters. Qed.

Lemma remove_get_gone : get subdomain (remove subdomain w) = None.
Proof. unfold get. rewrite remove_tunnels, jsGet_jsDelete_eq. reflexivity. Qed.

End RemovePresent.

(** ** [forwardRequest] past its two guards *)

Lemma forwardRequest_open subdomain request timeoutMs w r c :
  get subdomain w = Some (r, c) ->
  readyState (sockets w (ws c)) = OPEN ->
  let p := nextPromise w in
  let t := nextTimer w in
  let waiter := {| sink := p; timeout := t |} in
  let stored := alter (fun c => withPending
                                  (jsSet (req_id request) waiter (pendingRequests c)) c)
                  r (clients w) in
  let w' := snd (forwardRequest subdomain request timeoutMs w) in
  fst (forwardRequest subdomain request timeoutMs w) = Awaiting p
  /\ tunnels w' = tunnels w /\ sockets w' = sockets w
  /\ timers w' = <[t := {| tm_client := r; tm_request := req_id request;
                           tm_sink := p; tm_delay := timeoutMs |}]> (timers w)
  /\ match sendThrows (sockets w (ws c)) with
     | None =>
         trace w' = trace w ++ [EvSetTimeout t timeoutMs;
                                EvPendingSet r (req_id request);
                                EvSend (ws c) (FrameRequest request)]
         /\ clients w' = alter (fun c => withRequestCount (requestCount c + 1) c)
                           r stored
         /\ promises w' = promises w
     | Some m =>
         trace w' = trace w ++ [EvSetTimeout t timeoutMs;
                                EvPendingSet r (req_id request);
                                EvReject p (SendFailed m)]
         /\ clients w' = stored
         /\ (promises w !! p = None ->
             promises w' !! p = Some (Rejected (SendFailed m)))
     end.
Proof.
  intros Hget Hopen. cbv zeta.
  unfold forwardRequest. rewrite Hget, Hopen. simpl.
  unfold wsSend. simpl.
  destruct (sendThrows (sockets w (ws c))) as [m|]; simpl.
  - unfold reject, emit, settle. simpl.
    destruct (promises w !! nextPromise w) eqn:E; simpl;
      rewrite <- !app_assoc; repeat split; try discriminate.
    intros _. apply lookup_insert_eq.
  - rewrite <- !app_assoc. repeat split.
Qed.

Lemma forwardRequest_closed subdomain request timeoutMs w r c :
  get subdomain w = Some (r, c) ->
  readyState (sockets w (ws c)) <> OPEN ->
  forwardRequest subdomain request timeoutMs w
  = (Threw TunnelNotOpen, remove subdomain w).
Proof.
  intros Hget Hclosed. unfold forwardRequest. rewrite Hget.
  destruct (readyState (sockets w (ws c))); try reflexivity. congruence.
Qed.

Lemma forwardRequest_absent subdomain request timeoutMs w :
  get subdomain w = None ->
  forwardRequest subdomain request timeoutMs w
  = (Threw (NoTunnelFound subdomain), w).
Proof. intros Hget. unfold forwardRequest. now rewrite Hget. Qed.

Lemma rejections_no_send l : filter isRequestSend (rejections l) = [].
Proof.
  induction l as [|[k p] l IH]; simpl; [reflexivity |].
  rewrite !filter_cons_False by (simpl; auto). exact IH.
Qed.

(** ** The scan by channel *)

Lemma findByWs_Some s h l subdomain r c :
  findByWs s h l = Some (subdomain, r, c) ->
  In (subdomain, r) l /\ h !! r = Some c /\ ws c = s.
Proof.
  induction l as [|[k r'] l IH]; simpl; [discriminate |].
  destruct (h !! r') as [c'|] eqn:E.
  - destruct (decide (ws c' = s)) as [Hs|Hs].
    + intros [= -> -> ->]. auto.
    + intros H. destruct (IH H) as (? & ? & ?). auto.
  - intros H. destruct (IH H) as (? & ? & ?). auto.
Qed.

Lemma findByWs_None s h l :
  (forall subdomain r c, In (subdomain, r) l -> h !! r = Some c -> ws c <> s) ->
  findByWs s h l = None.
Proof.
  induction l as [|[k r'] l IH]; simpl; intros H; [reflexivity |].
  destruct (h !! r') as [c'|] eqn:E.
  - rewrite decide_False by (apply (H k r'); auto).
    apply IH. intros k' r c Hin. apply (H k' r c). now right.
  - apply IH. intros k' r c Hin. apply (H k' r c). now right.
Qed.

Lemma handleResponse_hit s response w subdomain r c pending :
  owner s w = Some (subdomain, r, c) ->
  jsGet (res_id response) (pendingRequests c) = Some pending ->
  let w' := handleResponse s response w in
  trace w' = trace w ++ [EvClearTimeout (timeout pending);
                         EvPendingDelete r (res_id response);
                         EvResolve (sink pending) response]
  /\ clients w' = alter (fun c => withPending
                                    (jsDelete (res_id response) (pendingRequests c)) c)
                    r (clients w)
  /\ tunnels w' = tunnels w /\ sockets w' = sockets w
  /\ timers w' = delete (timeout pending) (timers w)
  /\ (promises w !! sink pending = None ->
      promises w' !! sink pending = Some (Resolved response))
  /\ (forall p, p <> sink pending -> promises w' !! p = promises w !! p).
Proof.
  unfold owner. intros Hown Hpend. cbv zeta.
  unfold handleResponse. rewrite Hown, Hpend.
  unfold resolve, pendingDelete, clearTimeout, updClient, emit, settle. simpl.
  destruct (promises w !! sink pending) eqn:E; simpl;
    rewrite <- !app_assoc; repeat split; try discriminate; try reflexivity.
  - intros _. apply lookup_insert_eq.
  - intros p Hne. now rewrite lookup_insert_ne.
Qed.

(** ** [register], whatever the map held *)

Lemma register_get subdomain localPort s w r client w' :
  register subdomain localPort s w = (r, client, w') ->
  get subdomain w' = Some (r, client)
  /\ ws client = s /\ Registry.subdomain client = subdomain
  /\ Registry.localPort client = localPort
  /\ requestCount client = 0%Z /\ pendingRequests client = [].
Proof.
  unfold register, uuidv4, tunnelsSet, emit. simpl. intros [= <- <- <-].
  split; [| repeat split].
  unfold get. simpl. now rewrite jsGet_jsSet_eq, lookup_insert_eq.
Qed.

Lemma wsSend_get s f w subdomain :
  get subdomain (snd (wsSend s f w)) = get subdomain w.
Proof. unfold wsSend. destruct (sendThrows (sockets w s)); reflexivity. Qed.

End RegistryFacts.

Section RegistryClaims.
Import Registry Spec.





(** ** [forwardRequest] *)

(** C2.  [forwardRequest] on a tunnel whose channel is open arms the
    timer and stores the waiter under [request.id], and calls [send] in
    the state so reached: there the pending table has the waiter and
    its timer is armed.  The events of the call are the arming, the
    insertion and then the transmission of the request frame (or, when
    [send] throws, the rejection of the promise). *)
Theorem forward_inserts_waiter_before_send (subdomain : string)
    (request : TunnelRequest) (timeoutMs : Z) (w : World)
    (r : nat) (c : TunnelClient) :
  get subdomain w = Some (r, c) ->
  readyState (sockets w (ws c)) = OPEN ->
  let p := nextPromise w in
  let t := nextTimer w in
  exists w3,
    newEvents w w3 = [EvSetTimeout t timeoutMs; EvPendingSet r (req_id request)]
    /\ jsGet (req_id request) (pendingOf r w3) = Some {| sink := p; timeout := t |}
    /\ timers w3 !! t = Some {| tm_client := r; tm_request := req_id request;
                                tm_sink := p; tm_delay := timeoutMs |}
    /\ forwardRequest subdomain request timeoutMs w
       = match wsSend (ws c) (FrameRequest request) w3 with
         | (None, w4) =>
             (Awaiting p,
              updClient r (fun c => withRequestCount (requestCount c + 1) c) w4)
         | (Some message, w4) => (Awaiting p, reject p (SendFailed message) w4)
         end
    /\ newEvents w (snd (forwardRequest subdomain request timeoutMs w))
       = [EvSetTimeout t timeoutMs; EvPendingSet r (req_id request)]
         ++ match sendThrows (sockets w (ws c)) with
            | None => [EvSend (ws c) (FrameRequest request)]
            | Some message => [EvReject p (SendFailed message)]
            end.
Proof.
  intros Hget Hopen p t. subst p t.
  destruct (proj1 (get_Some _ _ _ _) Hget) as [_ Hc].
  eexists (pendingSet r (req_id request)
             {| sink := nextPromise w; timeout := nextTimer w |}
             (snd (setTimeout {| tm_client := r; tm_request := req_id request;
                                 tm_sink := nextPromise w; tm_delay := timeoutMs |}
                     (snd (newPromise w))))).
  split.
  { apply newEvents_app. simpl. now rewrite <- app_assoc. }
  split.
  { unfold pendingOf. simpl. rewrite lookup_alter_eq, Hc. simpl.
    apply jsGet_jsSet_eq. }
  split; [simpl; apply lookup_insert_eq |].
  unfold forwardRequest. rewrite Hget, Hopen. simpl.
  split; [reflexivity |].
  unfold wsSend. simpl.
  destruct (sendThrows (sockets w (ws c))) as [m|]; simpl.
  - apply newEvents_app. unfold reject, emit, settle. simpl.
    destruct (promises w !! nextPromise w); simpl; now rewrite <- !app_assoc.
  - apply newEvents_app. simpl. now rewrite <- !app_assoc.
Qed.

Lemma forward_inserts_waiter_before_send_witness :
  get "a" Sample.world0 = Some (0, Sample.clientA)
  /\ readyState (sockets Sample.world0 1) = OPEN
  /\ newEvents Sample.world0
       (snd (forwardRequest "a" Sample.request3 30000 Sample.world0))
     = [EvSetTimeout 2 30000; EvPendingSet 0 "req-3";
        EvSend 1 (FrameRequest Sample.request3)].
Proof.
  split; [reflexivity |]. split; [reflexivity |].
  destruct (forward_inserts_waiter_before_send "a" Sample.request3 30000
              Sample.world0 0 Sample.clientA eq_refl eq_refl)
    as (w3 & _ & _ & _ & _ & Hev).
  rewrite Hev. reflexivity.
Defined.

(** C5.  A [forwardRequest] past its guards leaves the tunnel's
    [requestCount] at its old value plus the number of request frames
    the call transmitted: one, and the count one higher, when [send]
    returns; none, and the count unchanged, when [send] throws.  No
    other tunnel object is touched; and whatever the call does, a call
    that transmits no request frame leaves every [requestCount] as it
    was. *)
Theorem forward_counts_transmitted_frames (subdomain : string)
    (request : TunnelRequest) (timeoutMs : Z) (w : World) :
  let w' := snd (forwardRequest subdomain request timeoutMs w) in
  (forall r c, get subdomain w = Some (r, c) ->
     readyState (sockets w (ws c)) = OPEN ->
     exists c', clients w' !! r = Some c'
       /\ requestCount c'
          = (requestCount c
             + Z.of_nat (length (filter isRequestSend (newEvents w w'))))%Z
       /\ (sendThrows (sockets w (ws c)) = None ->
             filter isRequestSend (newEvents w w')
               = [EvSend (ws c) (FrameRequest request)]
             /\ requestCount c' = (requestCount c + 1)%Z)
       /\ (sendThrows (sockets w (ws c)) <> None ->
             filter isRequestSend (newEvents w w') = []
             /\ requestCount c' = requestCount c)
       /\ (forall r', r' <> r -> clients w' !! r' = clients w !! r'))
  /\ (filter isRequestSend (newEvents w w') = [] ->
      forall r' c', clients w !! r' = Some c' ->
        exists c'', clients w' !! r' = Some c''
                    /\ requestCount c'' = requestCount c').
Proof.
  cbv zeta. split.
  - intros r c Hget Hopen.
    destruct (proj1 (get_Some _ _ _ _) Hget) as [_ Hc].
    destruct (forwardRequest_open _ request timeoutMs _ _ _ Hget Hopen)
      as (_ & _ & _ & _ & H). cbv zeta in H.
    destruct (sendThrows (sockets w (ws c))) as [m|];
      destruct H as (Htr & Hcl & _);
      rewrite (newEvents_app _ _ _ Htr), Hcl; simpl.
    + eexists. rewrite lookup_alter_eq, Hc. simpl.
      split; [reflexivity |]. simpl. split; [lia |].
      split; [discriminate |]. split; [auto |].
      intros r' Hne. now rewrite lookup_alter_ne.
    + eexists. rewrite !lookup_alter_eq, Hc. simpl.
      split; [reflexivity |]. simpl. split; [lia |].
      split; [auto |]. split; [congruence |].
      intros r' Hne. now rewrite !lookup_alter_ne.
  - intros Hnone r' c' Hc'.
    destruct (get subdomain w) as [[r c]|] eqn:Hget.
    + destruct (decide (readyState (sockets w (ws c)) = OPEN)) as [Hopen|Hclosed].
      * destruct (forwardRequest_open _ request timeoutMs _ _ _ Hget Hopen)
          as (_ & _ & _ & _ & H). cbv zeta in H.
        destruct (sendThrows (sockets w (ws c))) as [m|];
          destruct H as (Htr & Hcl & _);
          rewrite (newEvents_app _ _ _ Htr) in Hnone; [| discriminate Hnone].
        rewrite Hcl. destruct (decide (r = r')) as [->|Hne].
        -- rewrite lookup_alter_eq, Hc'. simpl. eexists. split; reflexivity.
        -- rewrite lookup_alter_ne by exact Hne. eauto.
      * rewrite (forwardRequest_closed _ request timeoutMs _ _ _ Hget Hclosed).
        simpl. rewrite (remove_clients _ _ _ _ Hget).
        destruct (decide (r = r')) as [->|Hne].
        -- rewrite lookup_alter_eq, Hc'. simpl. eexists. split; reflexivity.
        -- rewrite lookup_alter_ne by exact Hne. eauto.
    + rewrite (forwardRequest_absent _ request timeoutMs _ Hget). simpl. eauto.
Qed.

Lemma forward_counts_transmitted_frames_witness :
  (get "a" Sample.world0 = Some (0, Sample.clientA)
   /\ readyState (sockets Sample.world0 1) = OPEN
   /\ sendThrows (sockets Sample.world0 1) = None
   /\ exists c', clients (snd (forwardRequest "a" Sample.request3 30000
                                 Sample.world0)) !! 0 = Some c'
                 /\ requestCount c' = 3%Z)
  /\ (get "a" Sample.world0Broken = Some (0, Sample.clientA)
      /\ readyState (sockets Sample.world0Broken 1) = OPEN
      /\ sendThrows (sockets Sample.world0Broken 1) <> None
      /\ exists c', clients (snd (forwardRequest "a" Sample.request3 30000
                                    Sample.world0Broken)) !! 0 = Some c'
                    /\ requestCount c' = 2%Z).
Proof.
  split.
  - split; [reflexivity |]. split; [reflexivity |]. split; [reflexivity |].
    destruct (proj1 (forward_counts_transmitted_frames "a" Sample.request3 30000
                       Sample.world0) 0 Sample.clientA eq_refl eq_refl)
      as (c' & Hc & _ & Hok & _).
    exists c'. split; [exact Hc |]. exact (proj2 (Hok eq_refl)).
  - split; [reflexivity |]. split; [reflexivity |]. split; [discriminate |].
    destruct (proj1 (forward_counts_transmitted_frames "a" Sample.request3 30000
                       Sample.world0Broken) 0 Sample.clientA eq_refl eq_refl)
      as (c' & Hc & _ & _ & Hko & _).
    exists c'. split; [exact Hc |].
    exact (proj2 (Hko ltac:(discriminate))).
Defined.

(** C6 as stated fails.  Tunnel ["a"] is registered on an open channel
    whose [send] throws: after [forwardRequest] the waiter stored under
    ["req-3"] is still in the pending table, its timer is still armed,
    and the promise the caller holds is rejected with the error [send]
    threw, not with "Tunnel connection is not open". *)
Lemma forward_send_failure_leaves_waiter :
  let call := forwardRequest "a" Sample.request3 30000 Sample.world0Broken in
  get "a" Sample.world0Broken = Some (0, Sample.clientA)
  /\ readyState (sockets Sample.world0Broken 1) = OPEN
  /\ sendThrows (sockets Sample.world0Broken 1) = Some "write EPIPE"
  /\ fst call = Awaiting 2
  /\ jsGet "req-3" (pendingOf 0 (snd call)) = Some {| sink := 2; timeout := 2 |}
  /\ timers (snd call) !! 2 <> None
  /\ promises (snd call) !! 2 = Some (Rejected (SendFailed "write EPIPE"))
  /\ promises (snd call) !! 2 <> Some (Rejected TunnelNotOpen).
Proof.
  cbv zeta. repeat split; try reflexivity; vm_compute; discriminate.
Qed.

(** C6, amended.  When [send] throws in [forwardRequest], the promise
    the caller holds is rejected with the error [send] threw; the
    waiter stays in the pending table under [request.id] and its timer
    stays armed (no timer is cleared), the tunnel stays registered with
    its [requestCount] unchanged, and the waiter leaves the table when
    its timer fires.  The error "Tunnel connection is not open" is what
    [forwardRequest] throws when it finds the channel not open, before
    any waiter is stored; it then removes the tunnel. *)
Theorem forward_send_failure (subdomain : string) (request : TunnelRequest)
    (timeoutMs : Z) (w : World) (r : nat) (c : TunnelClient) :
  get subdomain w = Some (r, c) ->
  let call := forwardRequest subdomain request timeoutMs w in
  (readyState (sockets w (ws c)) = OPEN ->
   forall m, sendThrows (sockets w (ws c)) = Some m ->
   promises w !! nextPromise w = None ->
   let p := nextPromise w in
   let t := nextTimer w in
   fst call = Awaiting p
   /\ promises (snd call) !! p = Some (Rejected (SendFailed m))
   /\ jsGet (req_id request) (pendingOf r (snd call))
      = Some {| sink := p; timeout := t |}
   /\ timers (snd call) !! t
      = Some {| tm_client := r; tm_request := req_id request; tm_sink := p;
                tm_delay := timeoutMs |}
   /\ (forall t', ~ In (EvClearTimeout t') (newEvents w (snd call)))
   /\ (exists c', get subdomain (snd call) = Some (r, c')
                  /\ requestCount c' = requestCount c)
   /\ jsGet (req_id request) (pendingOf r (fireTimer t (snd call))) = None)
  /\ (readyState (sockets w (ws c)) <> OPEN ->
      call = (Threw TunnelNotOpen, remove subdomain w)).
Proof.
  intros Hget. cbv zeta.
  split; [| intros Hclosed; now apply (forwardRequest_closed _ _ _ _ r c)].
  intros Hopen m Hm Hfresh.
  destruct (proj1 (get_Some _ _ _ _) Hget) as [Hr Hc].
  destruct (forwardRequest_open _ request timeoutMs _ _ _ Hget Hopen)
    as (Hout & Htu & _ & Hti & H). cbv zeta in H.
  rewrite Hm in H. destruct H as (Htr & Hcl & Hpr).
  split; [exact Hout |]. split; [exact (Hpr Hfresh) |].
  assert (clients (forwardRequest subdomain request timeoutMs w).2 !! r
          = Some (withPending
                    (jsSet (req_id request)
                       {| sink := nextPromise w; timeout := nextTimer w |}
                       (pendingRequests c)) c)) as Hlook.
  { rewrite Hcl, lookup_alter_eq, Hc. reflexivity. }
  split.
  { unfold pendingOf. rewrite Hlook. simpl. apply jsGet_jsSet_eq. }
  split; [rewrite Hti; apply lookup_insert_eq |].
  split.
  { intros t'. rewrite (newEvents_app _ _ _ Htr). simpl.
    intros [H|[H|[H|[]]]]; discriminate. }
  split.
  { eexists. split.
    - apply (proj2 (get_Some _ _ _ _)). rewrite Htu. split; [exact Hr | exact Hlook].
    - reflexivity. }
  unfold fireTimer. rewrite Hti, lookup_insert_eq.
  unfold reject, pendingOf, pendingDelete, updClient, emit. simpl.
  match goal with |- context [settle ?a ?b ?x] =>
    destruct (settle_frame a b x) as (_ & -> & _) end.
  simpl. rewrite lookup_alter_eq, Hlook. simpl. apply jsGet_jsDelete_eq.
Qed.

Lemma forward_send_failure_witness :
  get "a" Sample.world0Broken = Some (0, Sample.clientA)
  /\ readyState (sockets Sample.world0Broken 1) = OPEN
  /\ sendThrows (sockets Sample.world0Broken 1) = Some "write EPIPE"
  /\ promises Sample.world0Broken !! 2 = None
  /\ promises (snd (forwardRequest "a" Sample.request3 30000 Sample.world0Broken))
       !! 2 = Some (Rejected (SendFailed "write EPIPE"))
  /\ jsGet "req-3"
       (pendingOf 0 (snd (forwardRequest "a" Sample.request3 30000
                            Sample.world0Broken)))
     = Some {| sink := 2; timeout := 2 |}.
Proof.
  destruct (proj1 (forward_send_failure "a" Sample.request3 30000
                     Sample.world0Broken 0 Sample.clientA eq_refl)
              eq_refl "write EPIPE" eq_refl eq_refl)
    as (_ & Hp & Hw & _).
  do 4 (split; [reflexivity |]). split; [exact Hp | exact Hw].
Defined.

(** ** [handleResponse] *)

(** C4.  In a call [handleResponse(ws, response)] a promise is
    completed (an event), and the state of a promise changes, only if
    it is the one of a waiter stored under [response.id] in the pending
    table of a registered tunnel whose channel is [ws], and it is
    completed with [response].  When no
    registered tunnel has [ws] as its channel, or when the tunnel the
    frame is attributed to (the first one registered on [ws]) has no
    waiter under [response.id], the call returns the world as it was.
    Otherwise the call clears that waiter's timer, deletes it from the
    table of that tunnel and resolves it, and touches nothing else. *)
Theorem handleResponse_scoped_to_channel (s : nat) (response : TunnelResponse)
    (w : World) :
  let w' := handleResponse s response w in
  (forall e, In e (newEvents w w') -> isCompletion e = true ->
     exists subdomain r c pending,
       In (subdomain, r) (tunnels w) /\ clients w !! r = Some c /\ ws c = s
       /\ jsGet (res_id response) (pendingRequests c) = Some pending
       /\ e = EvResolve (sink pending) response)
  /\ (forall p, promises w' !! p <> promises w !! p ->
     exists subdomain r c pending,
       In (subdomain, r) (tunnels w) /\ clients w !! r = Some c /\ ws c = s
       /\ jsGet (res_id response) (pendingRequests c) = Some pending
       /\ p = sink pending /\ promises w' !! p = Some (Resolved response))
  /\ ((forall subdomain r c,
         In (subdomain, r) (tunnels w) -> clients w !! r = Some c -> ws c <> s) ->
      w' = w)
  /\ (forall subdomain r c,
        owner s w = Some (subdomain, r, c) ->
        jsGet (res_id response) (pendingRequests c) = None ->
        w' = w)
  /\ (forall subdomain r c pending,
        owner s w = Some (subdomain, r, c) ->
        jsGet (res_id response) (pendingRequests c) = Some pending ->
        ws c = s
        /\ newEvents w w' = [EvClearTimeout (timeout pending);
                             EvPendingDelete r (res_id response);
                             EvResolve (sink pending) response]
        /\ pendingOf r w' = jsDelete (res_id response) (pendingRequests c)
        /\ (forall r', r' <> r -> clients w' !! r' = clients w !! r')
        /\ tunnels w' = tunnels w).
Proof.
  cbv zeta.
  assert (forall subdomain r c,
            owner s w = Some (subdomain, r, c) ->
            jsGet (res_id response) (pendingRequests c) = None ->
            handleResponse s response w = w) as Hmiss.
  { intros k r c Hown Hnone. unfold owner in Hown. unfold handleResponse.
    now rewrite Hown, Hnone. }
  assert (owner s w = None -> handleResponse s response w = w) as Hnoowner.
  { unfold owner, handleResponse. now intros ->. }
  split; [| split; [| split; [| split]]].
  - intros e Hin He.
    destruct (owner s w) as [[[k r] c]|] eqn:Hown.
    + destruct (jsGet (res_id response) (pendingRequests c)) as [pending|] eqn:Hp.
      * destruct (handleResponse_hit _ _ _ _ _ _ _ Hown Hp) as (Htr & _).
        rewrite (newEvents_app _ _ _ Htr) in Hin.
        destruct (findByWs_Some _ _ _ _ _ _ Hown) as (Hl & Hc & Hs).
        exists k, r, c, pending. repeat (split; [assumption |]).
        simpl in Hin. destruct Hin as [<-|[<-|[<-|[]]]];
          solve [discriminate He | reflexivity].
      * rewrite (Hmiss _ _ _ eq_refl Hp) in Hin. unfold newEvents in Hin.
        rewrite drop_all in Hin. destruct Hin.
    + rewrite (Hnoowner eq_refl) in Hin. unfold newEvents in Hin.
      rewrite drop_all in Hin. destruct Hin.
  - intros p Hchg.
    destruct (owner s w) as [[[k r] c]|] eqn:Hown.
    + destruct (jsGet (res_id response) (pendingRequests c)) as [pending|] eqn:Hp.
      * destruct (handleResponse_hit _ _ _ _ _ _ _ Hown Hp)
          as (_ & _ & _ & _ & _ & Hset & Hframe).
        destruct (findByWs_Some _ _ _ _ _ _ Hown) as (Hl & Hc & Hs).
        destruct (decide (p = sink pending)) as [->|Hne];
          [| now rewrite (Hframe p Hne) in Hchg].
        exists k, r, c, pending. repeat (split; [assumption || reflexivity |]).
        destruct (promises w !! sink pending) as [v|] eqn:E; [| now apply Hset].
        exfalso. apply Hchg. unfold handleResponse.
        unfold owner in Hown. rewrite Hown, Hp.
        unfold resolve, emit. simpl. now apply settle_settled.
      * now rewrite (Hmiss _ _ _ eq_refl Hp) in Hchg.
    + now rewrite (Hnoowner eq_refl) in Hchg.
  - intros Hno. apply Hnoowner. now apply findByWs_None.
  - exact Hmiss.
  - intros k r c pending Hown Hp.
    destruct (handleResponse_hit _ _ _ _ _ _ _ Hown Hp)
      as (Htr & Hcl & Htu & _).
    destruct (findByWs_Some _ _ _ _ _ _ Hown) as (Hl & Hc & Hs).
    split; [exact Hs |]. split; [exact (newEvents_app _ _ _ Htr) |].
    split.
    { unfold pendingOf. rewrite Hcl, lookup_alter_eq, Hc. reflexivity. }
    split; [| exact Htu].
    intros r' Hne. rewrite Hcl. now apply lookup_alter_ne.
Qed.

Lemma handleResponse_scoped_to_channel_witness :
  (owner 1 Sample.world0 = Some ("a", 0, Sample.clientA)
   /\ jsGet "req-1" (pendingRequests Sample.clientA)
      = Some {| sink := 0; timeout := 0 |}
   /\ newEvents Sample.world0 (handleResponse 1 Sample.response1 Sample.world0)
      = [EvClearTimeout 0; EvPendingDelete 0 "req-1";
         EvResolve 0 Sample.response1])
  /\ (owner 1 Sample.world0 = Some ("a", 0, Sample.clientA)
      /\ jsGet "req-9" (pendingRequests Sample.clientA) = None
      /\ handleResponse 1 Sample.response9 Sample.world0 = Sample.world0)
  /\ (owner 2 Sample.world0 = Some ("b", 1, Sample.clientB)
      /\ jsGet "req-1" (pendingRequests Sample.clientB) = None
      /\ handleResponse 2 Sample.response1 Sample.world0 = Sample.world0).
Proof.
  split; [| split].
  - do 2 (split; [reflexivity |]).
    destruct (handleResponse_scoped_to_channel 1 Sample.response1 Sample.world0)
      as (_ & _ & _ & _ & Hhit).
    exact (proj1 (proj2 (Hhit "a" 0 Sample.clientA _ eq_refl eq_refl))).
  - do 2 (split; [reflexivity |]).
    destruct (handleResponse_scoped_to_channel 1 Sample.response9 Sample.world0)
      as (_ & _ & _ & Hmiss & _).
    exact (Hmiss "a" 0 Sample.clientA eq_refl eq_refl).
  - do 2 (split; [reflexivity |]).
    destruct (handleResponse_scoped_to_channel 2 Sample.response1 Sample.world0)
      as (_ & _ & _ & Hmiss & _).
    exact (Hmiss "b" 1 Sample.clientB eq_refl eq_refl).
Defined.

End RegistryClaims.

(* ===================================================================== *)
(** * Every reachable world is well allocated *)
(* ===================================================================== *)

Section ReachFacts.
Import Registry Spec Reach.



















End ReachFacts.

(* ===================================================================== *)
(** * Properties of the session handler *)
(* ===================================================================== *)

Section SessionClaims.
Import Registry Spec Session.

Lemma truthy_nonempty (s : string) : s <> EmptyString -> truthy s = true.
Proof. destruct s; [congruence | reflexivity]. Qed.

(** C10.  A [register] message whose [subdomain] is a non-empty string
    without any letter or digit (a blank string, say) makes the handler
    register the empty string: [sanitizeSubdomain] returns the empty
    string for it, the handler passes that to [register] unchecked, and
    afterwards [get] of the empty string returns the tunnel of this
    channel -- although the empty string is not a label of the
    grammar. *)
Theorem register_message_without_alnum_registers_empty_label
    (domain : string) (s : nat) (raw : string)
    (requestedSubdomain : option string) (localPort : Z) (w : World) :
  raw <> EmptyString ->
  forallb (fun c => negb (Label.isAlnum c)) (list_ascii_of_string raw) = true ->
  let w' := snd (handleMessage domain s (MsgRegister (FieldString raw))
                   requestedSubdomain localPort w) in
  Subdomain.sanitizeSubdomain raw = EmptyString
  /\ Label.validLabel EmptyString = false
  /\ exists r client,
       get EmptyString w' = Some (r, client)
       /\ ws client = s /\ subdomain client = EmptyString
       /\ Registry.localPort client = localPort.
Proof.
  intros Hne Hall. cbv zeta.
  pose proof (sanitizeSubdomain_not_alnum raw Hall) as Hsan.
  split; [exact Hsan |]. split; [reflexivity |].
  unfold handleMessage, chooseSubdomain.
  rewrite (truthy_nonempty raw Hne), Hsan.
  destruct (register EmptyString localPort s w) as [[r client] w2] eqn:Hreg.
  destruct (register_get _ _ _ _ _ _ _ Hreg) as (Hget & Hws & Hsub & Hport & _).
  exists r, client.
  pose proof (wsSend_get s
                (FrameTunnelReady ("https://" +:+ EmptyString +:+ "." +:+ domain)
                   EmptyString (id client)) w2 EmptyString) as Hsend.
  destruct (wsSend s _ w2) as [[m|] w3]; simpl in *;
    rewrite Hsend; auto.
Qed.

Lemma register_message_without_alnum_registers_empty_label_witness :
  " " <> EmptyString
  /\ forallb (fun c => negb (Label.isAlnum c)) (list_ascii_of_string " ") = true
  /\ exists r client,
       get EmptyString
         (snd (handleMessage "example.com" 3 (MsgRegister (FieldString " "))
                 None 3000 Sample.world0)) = Some (r, client)
       /\ ws client = 3.
Proof.
  split; [discriminate |]. split; [reflexivity |].
  destruct (register_message_without_alnum_registers_empty_label
              "example.com" 3 " " None 3000 Sample.world0
              ltac:(discriminate) eq_refl)
    as (_ & _ & r & client & Hget & Hws & _).
  exists r, client. split; [exact Hget | exact Hws].
Defined.

End SessionClaims.

(* ===================================================================== *)
(** * Properties of the HTTP adapter *)
(* ===================================================================== *)

Section ProxyFacts.
Import Registry Proxy ProxySpec.

Lemma jsSet_absent {V : Type} (k : string) (v : V) (m : list (string * V)) :
  jsGet k m = None -> jsSet k v m = m ++ [(k, v)].
Proof.
  induction m as [|[k' v'] m IH]; simpl; [reflexivity |].
  destruct (decide (k = k')); [discriminate |]. intros H. now rewrite IH.
Qed.








End ProxyFacts.

Section ProxyClaims.
Import Registry Proxy ProxySpec.




End ProxyClaims.

(* ===================================================================== *)
(** * Further properties of the subdomain utilities *)
(* ===================================================================== *)

Section SanitizeShape.
Import Subdomain Label Shape.

Lemma noDoubleDash_cons c l :
  noDoubleDash (c :: l) = negb (isDash c && headDash l) && noDoubleDash l.
Proof. destruct l as [|d l]; simpl; [now rewrite andb_false_r | reflexivity]. Qed.

Lemma collapseDashes_drop c l :
  isDash c = true -> headDash l = true ->
  collapseDashes (c :: l) = collapseDashes l.
Proof. intros Hc Hl. destruct l as [|d l]; [discriminate Hl |]. simpl in *. now rewrite Hc, Hl. Qed.

Lemma collapseDashes_keep c l :
  isDash c && headDash l = false ->
  collapseDashes (c :: l) = c :: collapseDashes l.
Proof.
  intros H. destruct l as [|d l]; simpl in *.
  - destruct (isDash c); reflexivity.
  - destruct (isDash c); [| reflexivity]. simpl in H. now rewrite H.
Qed.

Lemma headDash_collapse l : headDash (collapseDashes l) = headDash l.
Proof.
  induction l as [|c l IH]; [reflexivity |].
  destruct (isDash c && headDash l) eqn:E.
  - apply andb_prop in E as [Hc Hl].
    rewrite (collapseDashes_drop _ _ Hc Hl), IH. simpl. now rewrite Hc, Hl.
  - now rewrite (collapseDashes_keep _ _ E).
Qed.

Lemma noDoubleDash_collapse l : noDoubleDash (collapseDashes l) = true.
Proof.
  induction l as [|c l IH]; [reflexivity |].
  destruct (isDash c && headDash l) eqn:E.
  - apply andb_prop in E as [Hc Hl]. now rewrite (collapseDashes_drop _ _ Hc Hl).
  - rewrite (collapseDashes_keep _ _ E), noDoubleDash_cons, headDash_collapse, E, IH.
    reflexivity.
Qed.

Lemma forallb_collapse (P : ascii -> bool) l :
  forallb P l = true -> forallb P (collapseDashes l) = true.
Proof.
  induction l as [|c l IH]; [reflexivity |].
  intros H. apply andb_prop in H as [Hc Hl]. specialize (IH Hl).
  destruct (isDash c && headDash l) eqn:E.
  - apply andb_prop in E as [Hd Hh]. now rewrite (collapseDashes_drop _ _ Hd Hh).
  - rewrite (collapseDashes_keep _ _ E). simpl. now rewrite Hc, IH.
Qed.

Lemma forallb_replaceInvalid l : forallb inClass (replaceInvalid l) = true.
Proof.
  induction l as [|c l IH]; [reflexivity |]. simpl. rewrite IH.
  destruct (inClass c) eqn:Hc; [now rewrite Hc | reflexivity].
Qed.

Lemma dropTrailingDash_cons c d l :
  dropTrailingDash (c :: d :: l) = c :: dropTrailingDash (d :: l).
Proof. reflexivity. Qed.

Lemma forallb_dropTrailingDash (P : ascii -> bool) l :
  forallb P l = true -> forallb P (dropTrailingDash l) = true.
Proof.
  induction l as [|c l IH]; [reflexivity |].
  intros H. apply andb_prop in H as [Hc Hl].
  destruct l as [|d l'].
  - simpl. destruct (isDash c); [reflexivity | simpl; now rewrite Hc].
  - rewrite dropTrailingDash_cons. cbn [forallb]. now rewrite Hc, (IH Hl).
Qed.

Lemma headDash_dropTrailingDash l :
  headDash l = false -> headDash (dropTrailingDash l) = false.
Proof.
  destruct l as [|c [|d l']]; simpl; intros H; [reflexivity | now rewrite H | exact H].
Qed.

Lemma noDoubleDash_dropTrailingDash l :
  noDoubleDash l = true ->
  noDoubleDash (dropTrailingDash l) = true /\ lastDash (dropTrailingDash l) = false.
Proof.
  induction l as [|c l IH]; [auto |].
  destruct l as [|d l'].
  - intros _. simpl. destruct (isDash c) eqn:Hc; simpl; auto.
  - intros H. rewrite noDoubleDash_cons in H. apply andb_prop in H as [Hcd Hl].
    destruct (IH Hl) as [IHn IHl]. rewrite dropTrailingDash_cons.
    split.
    + rewrite noDoubleDash_cons, IHn, andb_true_r.
      destruct (isDash c) eqn:Hc; [| reflexivity]. simpl in Hcd.
      apply negb_true_iff in Hcd.
      now rewrite (headDash_dropTrailingDash (d :: l') Hcd).
    + destruct (dropTrailingDash (d :: l')) as [|y ys] eqn:E; [| exact IHl].
      destruct l' as [|e l'']; [| discriminate E].
      simpl in E. destruct (isDash d) eqn:Hd; [| discriminate E].
      simpl in Hcd. simpl. rewrite Hd, andb_true_r in Hcd.
      now apply negb_true_iff in Hcd.
Qed.

(** What [normalize] returns: characters of the class, no two dashes in
    a row, no dash at either end. *)
Lemma normalize_shape l :
  forallb inClass (normalize l) = true
  /\ noDoubleDash (normalize l) = true
  /\ headDash (normalize l) = false
  /\ lastDash (normalize l) = false.
Proof.
  unfold normalize, trimEdges.
  set (m := collapseDashes (replaceInvalid (toLowerCase l))).
  assert (forallb inClass m = true) as Hclass
    by (apply forallb_collapse, forallb_replaceInvalid).
  assert (noDoubleDash m = true) as Hnd by apply noDoubleDash_collapse.
  assert (forallb inClass (dropLeadingDash m) = true
          /\ noDoubleDash (dropLeadingDash m) = true
          /\ headDash (dropLeadingDash m) = false) as (Hc1 & Hn1 & Hh1).
  { destruct m as [|c r]; [auto |]. simpl dropLeadingDash.
    rewrite noDoubleDash_cons in Hnd. apply andb_prop in Hnd as [Hcd Hr].
    simpl in Hclass. apply andb_prop in Hclass as [Hc Hrc].
    destruct (isDash c) eqn:Hd.
    - simpl in Hcd. apply negb_true_iff in Hcd. auto.
    - repeat split.
      + simpl. now rewrite Hc, Hrc.
      + rewrite noDoubleDash_cons, Hd, Hr. reflexivity.
      + exact Hd. }
  destruct (noDoubleDash_dropTrailingDash _ Hn1) as [Hn2 Hl2].
  repeat split; [now apply forallb_dropTrailingDash | exact Hn2
                | now apply headDash_dropTrailingDash | exact Hl2].
Qed.

Lemma noDoubleDash_firstn n : forall l,
  noDoubleDash l = true -> noDoubleDash (firstn n l) = true.
Proof.
  induction n as [|n IH]; intros l H; [reflexivity |].
  destruct l as [|c l]; [reflexivity |].
  rewrite noDoubleDash_cons in H. apply andb_prop in H as [Hcd Hl].
  simpl firstn. rewrite noDoubleDash_cons, (IH _ Hl), andb_true_r.
  destruct n as [|n']; [simpl; now rewrite andb_false_r |].
  destruct l as [|d l']; exact Hcd.
Qed.

Lemma forallb_firstn (P : ascii -> bool) n : forall l,
  forallb P l = true -> forallb P (firstn n l) = true.
Proof.
  induction n as [|n IH]; intros l H; [reflexivity |].
  destruct l as [|c l]; [reflexivity |].
  simpl in *. apply andb_prop in H as [Hc Hl]. now rewrite Hc, (IH _ Hl).
Qed.

Lemma headDash_firstn n l : headDash l = false -> headDash (firstn n l) = false.
Proof. destruct n, l; simpl; auto. Qed.

Lemma firstn_all_le {A} n (l : list A) : length l <= n -> firstn n l = l.
Proof. intros H. now apply firstn_all2. Qed.

Lemma last_default (c c' d : ascii) l :
  List.last (d :: l) c = List.last (d :: l) c'.
Proof.
  revert d. induction l as [|e l IH]; intros d; [reflexivity |].
  change (List.last (d :: e :: l) c) with (List.last (e :: l) c).
  change (List.last (d :: e :: l) c') with (List.last (e :: l) c').
  apply IH.
Qed.

Lemma last_lastDash c l : isDash (List.last (c :: l) c) = lastDash (c :: l).
Proof.
  revert c. induction l as [|d l IH]; intros c; [reflexivity |].
  change (List.last (c :: d :: l) c) with (List.last (d :: l) c).
  change (lastDash (c :: d :: l)) with (lastDash (d :: l)).
  rewrite (last_default c d). apply IH.
Qed.

Lemma noEdgeDash_spec l :
  noEdgeDash l = negb (headDash l) && negb (lastDash l).
Proof. destruct l as [|c l]; [reflexivity |]. unfold noEdgeDash. now rewrite last_lastDash. Qed.

(** What [sanitizeChars] returns. *)
Lemma sanitizeChars_shape l :
  forallb inClass (sanitizeChars l) = true
  /\ noDoubleDash (sanitizeChars l) = true
  /\ headDash (sanitizeChars l) = false
  /\ length (sanitizeChars l) <= 63
  /\ (lastDash (sanitizeChars l) = true ->
      length (sanitizeChars l) = 63 /\ 63 < length (normalize l)).
Proof.
  destruct (normalize_shape l) as (Hc & Hn & Hh & Hl).
  unfold sanitizeChars, LABEL_MAX.
  split; [now apply forallb_firstn |]. split; [now apply noDoubleDash_firstn |].
  split; [now apply headDash_firstn |]. rewrite length_firstn. split; [lia |].
  intros Hlast. destruct (le_lt_dec (length (normalize l)) 63) as [Hle|Hgt]; [| lia].
  rewrite (firstn_all_le _ _ Hle) in Hlast. congruence.
Qed.

Lemma inClass_lower c : inClass c = true -> toLowerChar c = c.
Proof.
  destruct c as [[] [] [] [] [] [] [] []]; vm_compute; intros H;
    solve [discriminate H | reflexivity].
Qed.

Lemma collapseDashes_fixed l : noDoubleDash l = true -> collapseDashes l = l.
Proof.
  induction l as [|c l IH]; [reflexivity |].
  rewrite noDoubleDash_cons. intros H. apply andb_prop in H as [Hcd Hl].
  apply negb_true_iff in Hcd. now rewrite (collapseDashes_keep _ _ Hcd), (IH Hl).
Qed.

Lemma dropTrailingDash_fixed l : lastDash l = false -> dropTrailingDash l = l.
Proof.
  induction l as [|c l IH]; [reflexivity |].
  destruct l as [|d l']; intros H.
  - simpl in *. now rewrite H.
  - rewrite dropTrailingDash_cons, IH; [reflexivity | exact H].
Qed.

(** [sanitizeChars] leaves a label of the grammar as it is. *)
Lemma sanitizeChars_fixed l : validLabelChars l = true -> sanitizeChars l = l.
Proof.
  unfold validLabelChars. intros H.
  apply andb_prop in H as [H Hnd]. apply andb_prop in H as [H Hedge].
  apply andb_prop in H as [H Hclass]. apply andb_prop in H as [_ Hlen].
  apply Nat.leb_le in Hlen.
  rewrite noEdgeDash_spec in Hedge. apply andb_prop in Hedge as [Hh Hl].
  apply negb_true_iff in Hh, Hl.
  unfold sanitizeChars, normalize, trimEdges.
  assert (toLowerCase l = l) as ->.
  { clear -Hclass. induction l as [|c l IH]; [reflexivity |].
    simpl in *. apply andb_prop in Hclass as [Hc Hr].
    now rewrite (inClass_lower _ Hc), (IH Hr). }
  assert (replaceInvalid l = l) as ->.
  { clear -Hclass. induction l as [|c l IH]; [reflexivity |].
    simpl in *. apply andb_prop in Hclass as [Hc Hr]. now rewrite Hc, (IH Hr). }
  rewrite (collapseDashes_fixed _ Hnd).
  assert (dropLeadingDash l = l) as ->
    by (destruct l as [|c r]; [reflexivity | simpl in *; now rewrite Hh]).
  rewrite (dropTrailingDash_fixed _ Hl). now apply firstn_all_le.
Qed.

Lemma sanitizeChars_valid l :
  sanitizeChars l <> [] -> lastDash (sanitizeChars l) = false ->
  validLabelChars (sanitizeChars l) = true.
Proof.
  intros Hne Hlast.
  destruct (sanitizeChars_shape l) as (Hc & Hn & Hh & Hlen & _).
  unfold validLabelChars. rewrite Hc, Hn, noEdgeDash_spec, Hh, Hlast.
  destruct (sanitizeChars l) as [|c r]; [congruence |].
  simpl length in *. unfold LABEL_MAX.
  rewrite (proj2 (Nat.leb_le _ _) Hlen). reflexivity.
Qed.

End SanitizeShape.

Section SanitizeProperties.
Import Subdomain Label Shape.

(** X1.  Whatever the input, the result of [sanitizeSubdomain] has only
    characters of [[a-z0-9-]], no two dashes in a row, no dash in front
    and at most 63 characters; a dash at its end can only be the 63rd
    character of a longer string that was cut.  So the result is empty,
    or a label of the grammar, or 63 characters ending in a dash. *)
Theorem sanitize_result_shape (x : string) :
  let y := list_ascii_of_string (sanitizeSubdomain x) in
  forallb inClass y = true
  /\ noDoubleDash y = true
  /\ headDash y = false
  /\ length y <= 63
  /\ (lastDash y = true ->
      length y = 63 /\ 63 < length (normalize (list_ascii_of_string x)))
  /\ (sanitizeSubdomain x = EmptyString
      \/ validLabel (sanitizeSubdomain x) = true
      \/ (lastDash y = true /\ length y = 63)).
Proof.
  cbv zeta. unfold sanitizeSubdomain, validLabel.
  rewrite list_ascii_of_string_of_list_ascii.
  set (l := list_ascii_of_string x).
  destruct (sanitizeChars_shape l) as (Hc & Hn & Hh & Hlen & Hcut).
  repeat (split; [assumption |]).
  destruct (sanitizeChars l) as [|c r] eqn:E; [now left | right].
  destruct (lastDash (c :: r)) eqn:Hlast.
  - right. split; [reflexivity |]. now apply Hcut.
  - left. rewrite <- E. apply sanitizeChars_valid; rewrite E; [discriminate | exact Hlast].
Qed.

(** X2.  [sanitizeSubdomain] returns every label of the grammar
    unchanged. *)
Theorem sanitize_keeps_valid_label (s : string) :
  validLabel s = true -> sanitizeSubdomain s = s.
Proof.
  intros H. unfold sanitizeSubdomain.
  rewrite (sanitizeChars_fixed _ H). apply string_of_list_ascii_of_string.
Qed.

Lemma sanitize_keeps_valid_label_witness :
  validLabel "swift-app-x8k2" = true
  /\ sanitizeSubdomain "swift-app-x8k2" = "swift-app-x8k2".
Proof.
  split; [reflexivity |]. apply sanitize_keeps_valid_label. reflexivity.
Defined.

(** X3.  A second pass of [sanitizeSubdomain] changes nothing unless the
    first result ends in a dash: in particular whenever the first
    result has fewer than 63 characters. *)
Theorem sanitize_idempotent_unless_cut_at_dash (x : string) :
  lastDash (list_ascii_of_string (sanitizeSubdomain x)) = false ->
  sanitizeSubdomain (sanitizeSubdomain x) = sanitizeSubdomain x.
Proof.
  unfold sanitizeSubdomain. rewrite !list_ascii_of_string_of_list_ascii.
  set (l := list_ascii_of_string x). intros Hlast.
  destruct (sanitizeChars l) as [|c r] eqn:E; [reflexivity |].
  rewrite <- E. f_equal. apply sanitizeChars_fixed, sanitizeChars_valid;
    rewrite E; [discriminate | exact Hlast].
Qed.

Lemma sanitize_idempotent_unless_cut_at_dash_witness :
  lastDash (list_ascii_of_string (sanitizeSubdomain "--Foo__Bar--")) = false
  /\ sanitizeSubdomain (sanitizeSubdomain "--Foo__Bar--")
     = sanitizeSubdomain "--Foo__Bar--".
Proof.
  split; [reflexivity |].
  apply sanitize_idempotent_unless_cut_at_dash. reflexivity.
Defined.

End SanitizeProperties.

Section GenerateProperties.
Import Subdomain Label Shape Registry.

(** The grammar looks at a character only to see whether it is in the
    class and whether it is a dash. *)
Lemma validLabelChars_same_kind l l' :
  Forall2 (fun a b => inClass a = inClass b /\ isDash a = isDash b) l l' ->
  validLabelChars l = validLabelChars l'.
Proof.
  intros H. unfold validLabelChars. rewrite !noEdgeDash_spec.
  rewrite (Forall2_length _ _ _ H).
  assert (forallb inClass l = forallb inClass l') as ->.
  { induction H as [|a b l l' [Hc _] _ IH]; [reflexivity |]. simpl. now rewrite Hc, IH. }
  assert (headDash l = headDash l') as ->
    by (destruct H as [|a b l l' [_ Hd] _]; [reflexivity | exact Hd]).
  assert (lastDash l = lastDash l') as ->.
  { induction H as [|a b l l' [_ Hd] Hr IH]; [reflexivity |].
    destruct Hr; [exact Hd | exact IH]. }
  assert (noDoubleDash l = noDoubleDash l') as ->; [| reflexivity].
  induction H as [|a b l l' [_ Hd] Hr IH]; [reflexivity |].
  rewrite !noDoubleDash_cons, IH, Hd.
  destruct Hr as [|a' b' l l' [_ Hd'] _]; simpl; [reflexivity | now rewrite Hd'].
Qed.

Lemma isHex_kind c :
  isHex c = true -> inClass c = inClass "0" /\ isDash c = isDash "0".
Proof.
  destruct c as [[] [] [] [] [] [] [] []]; vm_compute; intros H;
    solve [discriminate H | split; reflexivity].
Qed.

Lemma list_of_append s1 s2 :
  list_ascii_of_string (s1 +:+ s2)
  = list_ascii_of_string s1 ++ list_ascii_of_string s2.
Proof. induction s1 as [|c s IH]; simpl; [reflexivity | now rewrite IH]. Qed.

(** All 144 pairs of words, with the suffix ["0000"]. *)
Lemma generated_words_valid :
  forallb (fun i => forallb (fun j => validLabel (generateSubdomainFrom i j "0000"))
                      (seq 0 12)) (seq 0 12) = true.
Proof. vm_compute. reflexivity. Qed.

Lemma generateSubdomainFrom_valid i j c1 c2 c3 c4 rest :
  isHex c1 = true -> isHex c2 = true -> isHex c3 = true -> isHex c4 = true ->
  validLabel (generateSubdomainFrom i j
                (String c1 (String c2 (String c3 (String c4 rest))))) = true.
Proof.
  intros H1 H2 H3 H4.
  assert (validLabel (generateSubdomainFrom i j "0000") = true) as Hzero.
  { pose proof generated_words_valid as Hall.
    rewrite forallb_forall in Hall.
    assert (In (i mod 12) (seq 0 12)) as Hi
      by (apply in_seq; pose proof (Nat.mod_upper_bound i 12); lia).
    specialize (Hall _ Hi). rewrite forallb_forall in Hall.
    assert (In (j mod 12) (seq 0 12)) as Hj
      by (apply in_seq; pose proof (Nat.mod_upper_bound j 12); lia).
    specialize (Hall _ Hj). unfold generateSubdomainFrom in *.
    now rewrite !Nat.Div0.mod_mod in Hall. }
  rewrite <- Hzero. unfold validLabel, generateSubdomainFrom.
  apply validLabelChars_same_kind.
  rewrite !list_of_append.
  assert (forall l, Forall2 (fun a b => inClass a = inClass b /\ isDash a = isDash b)
                      l l) as Hrefl
    by (induction l; constructor; auto).
  do 4 (apply Forall2_app; [apply Hrefl |]).
  simpl. assert (substring 0 0 rest = EmptyString) as -> by (destruct rest; reflexivity).
  simpl. repeat constructor; now apply isHex_kind.
Qed.

(** X4.  When the UUID it draws starts with four lower-case hexadecimal
    digits, [generateSubdomain] returns a label of the grammar, which
    [sanitizeSubdomain] leaves unchanged. *)
Theorem generated_subdomain_is_label (w : World) (c1 c2 c3 c4 : ascii)
    (rest : string) :
  uuids w (uuidPos w) = String c1 (String c2 (String c3 (String c4 rest))) ->
  isHex c1 = true -> isHex c2 = true -> isHex c3 = true -> isHex c4 = true ->
  validLabel (fst (Session.generateSubdomain w)) = true
  /\ sanitizeSubdomain (fst (Session.generateSubdomain w))
     = fst (Session.generateSubdomain w).
Proof.
  intros Hu H1 H2 H3 H4.
  assert (validLabel (fst (Session.generateSubdomain w)) = true) as Hvalid.
  { unfold Session.generateSubdomain, mathRandom, uuidv4. simpl. rewrite Hu.
    now apply generateSubdomainFrom_valid. }
  split; [exact Hvalid |].
  unfold sanitizeSubdomain. rewrite (sanitizeChars_fixed _ Hvalid).
  apply string_of_list_ascii_of_string.
Qed.

Lemma generated_subdomain_is_label_witness :
  uuids Sample.world0 (uuidPos Sample.world0)
  = String "a" (String "4" (String "c" (String "1" "e2f0-93ab-4d6e-b1f7-0e5a9c3d2b48")))
  /\ fst (Session.generateSubdomain Sample.world0) = "swift-code-a4c1"
  /\ validLabel (fst (Session.generateSubdomain Sample.world0)) = true.
Proof.
  split; [reflexivity |]. split; [reflexivity |].
  apply (generated_subdomain_is_label Sample.world0 "a" "4" "c" "1"
           "e2f0-93ab-4d6e-b1f7-0e5a9c3d2b48"); reflexivity.
Defined.

End GenerateProperties.

(* ===================================================================== *)
(** * Properties of the adapter's request side *)
(* ===================================================================== *)

Section ExtractFacts.
Import Subdomain Adapter.

Lemma beforeColon_clean l : noChar ":" l -> beforeColon l = l.
Proof.
  unfold noChar. induction l as [|c l IH]; simpl; [reflexivity |].
  intros H. apply orb_false_elim in H as [Hc Hl]. now rewrite Hc, (IH Hl).
Qed.

Lemma beforeColon_port l p : noChar ":" l -> beforeColon (l ++ ":"%char :: p) = l.
Proof.
  unfold noChar. induction l as [|c l IH]; simpl; [reflexivity |].
  intros H. apply orb_false_elim in H as [Hc Hl]. now rewrite Hc, (IH Hl).
Qed.

Lemma beforeColon_no_colon l : noChar ":" (beforeColon l).
Proof.
  unfold noChar. induction l as [|c l IH]; simpl; [reflexivity |].
  destruct (isChar ":" c) eqn:Hc; simpl; [reflexivity | now rewrite Hc, IH].
Qed.

Lemma beforeColon_length l : length (beforeColon l) <= length l.
Proof.
  induction l as [|c l IH]; simpl; [lia |].
  destruct (isChar ":" c); simpl; lia.
Qed.

Lemma noChar_app x l l' : noChar x (l ++ l') <-> noChar x l /\ noChar x l'.
Proof. unfold noChar. rewrite existsb_app. apply orb_false_iff. Qed.

Lemma endsWith_app a suffix : endsWith (a ++ suffix) suffix = true.
Proof.
  unfold endsWith. rewrite length_app.
  rewrite (proj2 (Nat.leb_le _ _)) by lia.
  replace (length a + length suffix - length suffix) with (length a) by lia.
  rewrite skipn_app, skipn_all, Nat.sub_diag. simpl.
  now rewrite bool_decide_eq_true_2.
Qed.

Lemma endsWith_split s suffix :
  endsWith s suffix = true -> s = sliceOff (length suffix) s ++ suffix.
Proof.
  unfold endsWith, sliceOff. intros H. apply andb_prop in H as [_ H].
  apply bool_decide_eq_true_1 in H.
  set (n := length s - length suffix) in *.
  transitivity (firstn n s ++ skipn n s);
    [symmetry; apply firstn_skipn | now rewrite H].
Qed.

Lemma sliceOff_app a suffix : sliceOff (length suffix) (a ++ suffix) = a.
Proof.
  unfold sliceOff. rewrite length_app.
  replace (length a + length suffix - length suffix) with (length a) by lia.
  rewrite firstn_app, firstn_all, Nat.sub_diag. simpl. apply app_nil_r.
Qed.

(** A host made of a label, a dot and the domain gives the label. *)
Lemma extractChars_label label domain :
  label <> [] -> noChar "." label -> noChar ":" label -> noChar ":" domain ->
  extractChars (label ++ "."%char :: domain) domain = Some label
  /\ forall port,
       extractChars (label ++ "."%char :: domain ++ ":"%char :: port) domain
       = Some label.
Proof.
  intros Hne Hdot Hcl Hcd.
  assert (noChar ":" (label ++ "."%char :: domain)) as Hclean.
  { apply noChar_app. split; [exact Hcl |]. unfold noChar in *. simpl. exact Hcd. }
  assert (forall h, beforeColon h = label ++ "."%char :: domain ->
                    extractChars h domain = Some label) as Hcore.
  { intros h Hh. unfold extractChars. rewrite Hh.
    rewrite endsWith_app. simpl negb. cbv iota.
    replace (length domain + 1) with (length ("."%char :: domain))
      by (simpl; lia).
    rewrite sliceOff_app. destruct label as [|c r]; [congruence |].
    unfold noChar in Hdot. now rewrite Hdot. }
  split.
  - apply Hcore. now apply beforeColon_clean.
  - intros port. apply Hcore.
    replace (label ++ "."%char :: domain ++ ":"%char :: port)
      with ((label ++ "."%char :: domain) ++ ":"%char :: port)
      by (now rewrite <- app_assoc).
    now apply beforeColon_port.
Qed.

(** What a result of [extractChars] is. *)
Lemma extractChars_sound host domain sub :
  extractChars host domain = Some sub ->
  sub <> [] /\ noChar "." sub /\ noChar ":" sub
  /\ beforeColon host = sub ++ "."%char :: domain.
Proof.
  unfold extractChars.
  destruct (endsWith (beforeColon host) ("."%char :: domain)) eqn:Hends;
    [| discriminate].
  simpl negb. cbv iota.
  pose proof (endsWith_split _ _ Hends) as Hsplit.
  replace (length ("."%char :: domain)) with (length domain + 1) in Hsplit
    by (simpl; lia).
  destruct (sliceOff (length domain + 1) (beforeColon host)) as [|c r] eqn:E;
    [discriminate |].
  destruct (existsb (isChar ".") (c :: r)) eqn:Hdot; [discriminate |].
  intros [= <-]. split; [discriminate |]. split; [exact Hdot |].
  split; [| exact Hsplit].
  pose proof (beforeColon_no_colon host) as Hc. rewrite Hsplit in Hc.
  now apply noChar_app in Hc.
Qed.

End ExtractFacts.

Section AdapterProperties.
Import Subdomain Label Shape Registry Adapter.

Lemma string_of_list_of_string_app a b :
  string_of_list_ascii (list_ascii_of_string a ++ list_ascii_of_string b) = a +:+ b.
Proof. now rewrite <- list_of_append, string_of_list_ascii_of_string. Qed.

Lemma list_of_string_nonempty s : s <> EmptyString -> list_ascii_of_string s <> [].
Proof. destruct s; [congruence | discriminate]. Qed.

(** X5.  [extractSubdomain] gives back the label of a host made of a
    non-empty label without dot or colon, a dot and the domain (itself
    without colon), with or without a port. *)
Theorem extractSubdomain_of_label_host (label domain port : string) :
  label <> EmptyString ->
  noChar "." (list_ascii_of_string label) ->
  noChar ":" (list_ascii_of_string label) ->
  noChar ":" (list_ascii_of_string domain) ->
  extractSubdomain (label +:+ "." +:+ domain) domain = Some label
  /\ extractSubdomain (label +:+ "." +:+ domain +:+ ":" +:+ port) domain
     = Some label.
Proof.
  intros Hne Hdot Hcolon Hdom.
  destruct (extractChars_label _ _ (list_of_string_nonempty _ Hne) Hdot Hcolon Hdom)
    as [Hplain Hport].
  unfold extractSubdomain. rewrite !list_of_append. simpl.
  rewrite Hplain, Hport. simpl.
  now rewrite string_of_list_ascii_of_string.
Qed.

Lemma extractSubdomain_of_label_host_witness :
  "swift-app-x8k2" <> EmptyString
  /\ noChar "." (list_ascii_of_string "swift-app-x8k2")
  /\ noChar ":" (list_ascii_of_string "swift-app-x8k2")
  /\ noChar ":" (list_ascii_of_string "localhosted.live")
  /\ extractSubdomain "swift-app-x8k2.localhosted.live:8080" "localhosted.live"
     = Some "swift-app-x8k2".
Proof.
  split; [discriminate |]. do 3 (split; [reflexivity |]).
  apply (proj2 (extractSubdomain_of_label_host "swift-app-x8k2" "localhosted.live"
                  "8080" ltac:(discriminate) eq_refl eq_refl eq_refl)).
Defined.

(** What a result of [extractSubdomain] is. *)
Lemma extractSubdomain_sound (host domain sub : string) :
  extractSubdomain host domain = Some sub ->
  sub <> EmptyString
  /\ noChar "." (list_ascii_of_string sub)
  /\ noChar ":" (list_ascii_of_string sub)
  /\ string_of_list_ascii (beforeColon (list_ascii_of_string host))
     = sub +:+ "." +:+ domain.
Proof.
  unfold extractSubdomain. intros H.
  destruct (extractChars (list_ascii_of_string host) (list_ascii_of_string domain))
    as [l|] eqn:E; [| discriminate].
  simpl in H. injection H as <-.
  destruct (extractChars_sound _ _ _ E) as (Hne & Hdot & Hcolon & Hhost).
  rewrite list_ascii_of_string_of_list_ascii.
  split; [destruct l; [congruence | discriminate] |].
  split; [exact Hdot |]. split; [exact Hcolon |].
  rewrite Hhost.
  change ("."%char :: list_ascii_of_string domain)
    with (list_ascii_of_string ("." +:+ domain)).
  rewrite <- (list_ascii_of_string_of_list_ascii l) at 1.
  apply string_of_list_of_string_app.
Qed.

(** X6.  A subdomain [extractSubdomain] returns is never empty and has
    neither dot nor colon, and the host before its port is that
    subdomain, a dot and the domain.  The bare domain gives nothing, and
    neither does a host with a nested subdomain. *)
Theorem extractSubdomain_result (host domain : string) :
  (forall sub, extractSubdomain host domain = Some sub ->
     sub <> EmptyString
     /\ noChar "." (list_ascii_of_string sub)
     /\ noChar ":" (list_ascii_of_string sub)
     /\ string_of_list_ascii (beforeColon (list_ascii_of_string host))
        = sub +:+ "." +:+ domain)
  /\ extractSubdomain domain domain = None
  /\ (forall a b,
        noChar ":" (list_ascii_of_string (a +:+ "." +:+ b +:+ "." +:+ domain)) ->
        extractSubdomain (a +:+ "." +:+ b +:+ "." +:+ domain) domain = None).
Proof.
  split; [| split].
  - intros sub. apply extractSubdomain_sound.
  - unfold extractSubdomain.
    destruct (extractChars (list_ascii_of_string domain) (list_ascii_of_string domain))
      as [l|] eqn:E; [| reflexivity].
    destruct (extractChars_sound _ _ _ E) as (_ & _ & _ & Hhost).
    pose proof (beforeColon_length (list_ascii_of_string domain)) as Hlen.
    rewrite Hhost, length_app in Hlen. simpl in Hlen. lia.
  - intros a b Hclean. unfold extractSubdomain.
    destruct (extractChars _ (list_ascii_of_string domain)) as [l|] eqn:E;
      [| reflexivity].
    destruct (extractChars_sound _ _ _ E) as (_ & Hdot & _ & Hhost).
    rewrite (beforeColon_clean _ Hclean) in Hhost.
    rewrite !list_of_append in Hhost. simpl in Hhost.
    replace (list_ascii_of_string a ++ "."%char :: list_ascii_of_string b
             ++ "."%char :: list_ascii_of_string domain)
      with ((list_ascii_of_string a ++ "."%char :: list_ascii_of_string b)
            ++ "."%char :: list_ascii_of_string domain) in Hhost
      by (now rewrite <- app_assoc).
    apply app_inv_tail in Hhost. subst l.
    apply noChar_app in Hdot as [_ Hdot]. unfold noChar in Hdot.
    simpl in Hdot. discriminate.
Qed.

Lemma extractSubdomain_result_witness :
  extractSubdomain "a.example.com:443" "example.com" = Some "a"
  /\ "a" <> EmptyString
  /\ string_of_list_ascii (beforeColon (list_ascii_of_string "a.example.com:443"))
     = "a.example.com"
  /\ extractSubdomain "a.b.example.com" "example.com" = None.
Proof.
  destruct (extractSubdomain_result "a.example.com:443" "example.com")
    as (Hs & _ & Hn).
  destruct (Hs "a" eq_refl) as (Hne & _ & _ & Hh).
  split; [reflexivity |]. split; [exact Hne |]. split; [exact Hh |].
  apply (Hn "a" "b"). reflexivity.
Defined.

(** ** [flattenHeaders] *)

Lemma jsGet_None_notin {V : Type} (k : string) (m : list (string * V)) :
  jsGet k m = None <-> ~ In k (map fst m).
Proof.
  induction m as [|[k' v] m IH]; simpl; [tauto |].
  destruct (decide (k = k')) as [->|Hne].
  - split; [discriminate | intros H; exfalso; apply H; now left].
  - rewrite IH. split; [intros H [Heq|Hin]; [congruence | tauto] | tauto].
Qed.

Lemma omap_flatEntry_keys entries k :
  In k (map fst (omap flatEntry entries)) -> In k (map fst entries).
Proof.
  induction entries as [|[k' v] rest IH]; simpl; [auto |].
  unfold flatEntry at 1. simpl. destruct (truthyValue v); simpl; intuition.
Qed.

Lemma flattenInto_distinct entries : forall result,
  NoDup (map fst entries) ->
  (forall k, In k (map fst entries) -> ~ In k (map fst result)) ->
  flattenInto entries result = result ++ omap flatEntry entries.
Proof.
  induction entries as [|[k v] rest IH]; intros result Hnd Hfresh; simpl.
  - now rewrite app_nil_r.
  - simpl in Hnd. apply NoDup_cons in Hnd as [Hk Hnd].
    unfold flatEntry at 1. simpl. destruct (truthyValue v).
    + rewrite jsSet_absent
        by (apply jsGet_None_notin, Hfresh; now left).
      rewrite IH; [now rewrite <- app_assoc | exact Hnd |].
      intros k' Hin. rewrite map_app, in_app_iff. simpl.
      intros [Hr|[<-|[]]].
      * apply (Hfresh k'); [now right | exact Hr].
      * apply Hk. now apply list_elem_of_In.
    + apply IH; [exact Hnd |]. intros k' Hin. apply Hfresh. now right.
Qed.

(** X7.  Of request headers with distinct names, [flattenHeaders]
    keeps, in order and under the same name, those whose value is a
    non-empty string (unchanged) or a list (joined with a comma and a
    space), and drops the undefined and the empty ones. *)
Theorem flattenHeaders_keeps_defined (headers : list (string * HeaderValue)) :
  NoDup (map fst headers) ->
  flattenHeaders headers
  = omap (fun kv => match snd kv with
                    | HvString s => if String.eqb s EmptyString then None
                                    else Some (fst kv, s)
                    | HvList l => Some (fst kv, join l)
                    | HvUndefined => None
                    end) headers.
Proof.
  intros Hnd. unfold flattenHeaders.
  rewrite flattenInto_distinct by (auto; intros k _ []). simpl.
  clear Hnd. induction headers as [|[k v] rest IH]; [reflexivity |].
  csimpl. rewrite IH. unfold flatEntry. simpl.
  destruct v as [|s|l]; simpl; [reflexivity | | reflexivity].
  unfold Session.truthy. destruct (String.eqb s EmptyString); reflexivity.
Qed.

Lemma flattenHeaders_keeps_defined_witness :
  NoDup (map fst [("Host", HvString "a.example.com");
                  ("x-empty", HvString EmptyString);
                  ("Accept", HvList ["text/html"; "application/json"]);
                  ("x-gone", HvUndefined)])
  /\ flattenHeaders [("Host", HvString "a.example.com");
                     ("x-empty", HvString EmptyString);
                     ("Accept", HvList ["text/html"; "application/json"]);
                     ("x-gone", HvUndefined)]
     = [("Host", "a.example.com"); ("Accept", "text/html, application/json")].
Proof.
  assert (NoDup (map fst [("Host", HvString "a.example.com");
                          ("x-empty", HvString EmptyString);
                          ("Accept", HvList ["text/html"; "application/json"]);
                          ("x-gone", HvUndefined)])) as Hnd
    by (apply (bool_decide_unpack _); vm_compute; exact I).
  split; [exact Hnd |].
  rewrite (flattenHeaders_keeps_defined _ Hnd). reflexivity.
Defined.

(** ** The path of the path-based adapter *)

Lemma queryString_split p q :
  noChar "?" p -> queryString (p ++ "?"%char :: q) = "?"%char :: q.
Proof.
  unfold noChar. induction p as [|c p IH]; simpl; [reflexivity |].
  intros H. apply orb_false_elim in H as [Hc Hp]. now rewrite Hc, (IH Hp).
Qed.

Lemma queryString_none p : noChar "?" p -> queryString p = [].
Proof.
  unfold noChar. induction p as [|c p IH]; simpl; [reflexivity |].
  intros H. apply orb_false_elim in H as [Hc Hp]. now rewrite Hc, (IH Hp).
Qed.

(** X8.  The path-based adapter forwards a slash, the rest of the
    route and the query string of the URL from its first question mark
    on, unchanged; without question mark nothing is appended, and
    without rest the path is the slash alone. *)
Theorem pathBasedPath_keeps_query (rest p q : string) :
  rest <> EmptyString ->
  noChar "?" (list_ascii_of_string p) ->
  pathBasedPath (Some rest) (p +:+ "?" +:+ q) = "/" +:+ rest +:+ "?" +:+ q
  /\ pathBasedPath (Some rest) p = "/" +:+ rest
  /\ pathBasedPath None (p +:+ "?" +:+ q) = "/?" +:+ q
  /\ pathBasedPath (Some EmptyString) p = "/".
Proof.
  intros Hne Hp.
  assert (forall s : string, s +:+ EmptyString = s) as Hnil.
  { induction s as [|c s IH]; [reflexivity |].
    change (String c (s +:+ EmptyString) = String c s). now rewrite IH. }
  assert (forall a b c : string, (a +:+ b) +:+ c = a +:+ b +:+ c) as Hassoc.
  { induction a as [|x a IH]; intros b c; [reflexivity |].
    change (String x ((a +:+ b) +:+ c) = String x (a +:+ b +:+ c)).
    now rewrite IH. }
  assert (string_of_list_ascii
            (queryString (list_ascii_of_string (p +:+ "?" +:+ q))) = "?" +:+ q)
    as Hquery.
  { rewrite list_of_append. simpl. rewrite (queryString_split _ _ Hp).
    simpl. now rewrite string_of_list_ascii_of_string. }
  assert (string_of_list_ascii (queryString (list_ascii_of_string p))
          = EmptyString) as Hnone
    by now rewrite (queryString_none _ Hp).
  unfold pathBasedPath. rewrite (truthy_nonempty _ Hne), Hquery, Hnone.
  split; [apply Hassoc |]. split; [apply Hnil |]. split; reflexivity.
Qed.

Lemma pathBasedPath_keeps_query_witness :
  "api/x" <> EmptyString
  /\ noChar "?" (list_ascii_of_string "/t/a/api/x")
  /\ pathBasedPath (Some "api/x") "/t/a/api/x?y=1&z=a?b" = "/api/x?y=1&z=a?b".
Proof.
  split; [discriminate |]. split; [reflexivity |].
  apply (proj1 (pathBasedPath_keeps_query "api/x" "/t/a/api/x" "y=1&z=a?b"
                  ltac:(discriminate) eq_refl)).
Defined.

(** ** Routing *)

(** X9.  Neither adapter forwards a request to the empty subdomain:
    when one of them gets as far as building the tunnel request, the
    subdomain is not empty and has a tunnel in the registry, the
    request carries the UUID drawn by this call, the method and the
    flattened headers of the HTTP request, and the only change of the
    world is that draw.  When an adapter hands the request on or
    answers it itself (400, or 502 "Tunnel Not Found"), the world is
    unchanged. *)
Theorem adapters_route_to_registered_tunnels (domain : string)
    (req : HttpRequest) (res : Proxy.Response) (w : World) :
  let byHost := proxyMiddleware domain req res w in
  let byPath := pathBasedProxy req res w in
  (forall sub request,
     fst byHost = Reading sub request \/ fst byPath = Reading sub request ->
     sub <> EmptyString
     /\ (exists r c, get sub w = Some (r, c))
     /\ req_id request = uuids w (uuidPos w)
     /\ req_method request = method req
     /\ req_headers request = flattenHeaders (reqHeaders req))
  /\ (forall sub request, fst byHost = Reading sub request ->
        extractSubdomain (hostOf req) domain = Some sub
        /\ snd byHost = withUuidPos (S (uuidPos w)) w)
  /\ (forall sub request, fst byPath = Reading sub request ->
        subdomainParam req = Some sub
        /\ req_path request = pathBasedPath (restParam req) (url req)
        /\ snd byPath = withUuidPos (S (uuidPos w)) w)
  /\ ((forall sub request, fst byHost <> Reading sub request) -> snd byHost = w)
  /\ ((forall sub request, fst byPath <> Reading sub request) -> snd byPath = w)
  /\ (forall sub, extractSubdomain (hostOf req) domain = Some sub ->
        get sub w = None ->
        exists message,
          byHost = (Replied (Proxy.sendJson 502 "Tunnel Not Found" message sub res), w)).
Proof.
  cbv zeta.
  assert (forall sub request,
            fst (proxyMiddleware domain req res w) = Reading sub request ->
            extractSubdomain (hostOf req) domain = Some sub
            /\ (exists r c, get sub w = Some (r, c))
            /\ req_id request = uuids w (uuidPos w)
            /\ req_method request = method req
            /\ req_headers request = flattenHeaders (reqHeaders req)
            /\ snd (proxyMiddleware domain req res w)
               = withUuidPos (S (uuidPos w)) w) as Hhost.
  { intros sub request. unfold proxyMiddleware.
    destruct (extractSubdomain (hostOf req) domain) as [s|]; [| discriminate].
    destruct (get s w) as [[r c]|] eqn:Hget; [| discriminate].
    simpl. intros [= <- <-]. simpl. eauto 10. }
  assert (forall sub request,
            fst (pathBasedProxy req res w) = Reading sub request ->
            subdomainParam req = Some sub /\ sub <> EmptyString
            /\ (exists r c, get sub w = Some (r, c))
            /\ req_id request = uuids w (uuidPos w)
            /\ req_method request = method req
            /\ req_headers request = flattenHeaders (reqHeaders req)
            /\ req_path request = pathBasedPath (restParam req) (url req)
            /\ snd (pathBasedProxy req res w)
               = withUuidPos (S (uuidPos w)) w) as Hpath.
  { intros sub request. unfold pathBasedProxy.
    destruct (subdomainParam req) as [s|]; [| discriminate].
    destruct (Session.truthy s) eqn:Ht; [| discriminate]. simpl negb. cbv iota.
    destruct (get s w) as [[r c]|] eqn:Hget; [| discriminate].
    simpl. intros [= <- <-]. simpl.
    split; [reflexivity |]. split; [destruct s; [discriminate Ht | discriminate] |].
    eauto 10. }
  split; [| split; [| split; [| split; [| split]]]].
  - intros sub request [H|H].
    + destruct (Hhost _ _ H) as (Hex & Hget & Hid & Hm & Hh & _).
      split; [| auto].
      now destruct (extractSubdomain_sound _ _ _ Hex).
    + destruct (Hpath _ _ H) as (_ & Hne & Hget & Hid & Hm & Hh & _). auto.
  - intros sub request H. destruct (Hhost _ _ H) as (? & _ & _ & _ & _ & ?). auto.
  - intros sub request H.
    destruct (Hpath _ _ H) as (? & _ & _ & _ & _ & _ & ? & ?). auto.
  - unfold proxyMiddleware.
    destruct (extractSubdomain (hostOf req) domain) as [s|]; [| reflexivity].
    destruct (get s w) as [[r c]|]; [| reflexivity].
    simpl. intros H. exfalso. eapply H. reflexivity.
  - unfold pathBasedProxy.
    destruct (subdomainParam req) as [s|]; [| reflexivity].
    destruct (Session.truthy s); [| reflexivity]. simpl negb. cbv iota.
    destruct (get s w) as [[r c]|]; [| reflexivity].
    simpl. intros H. exfalso. eapply H. reflexivity.
  - intros sub Hex Hget. unfold proxyMiddleware. rewrite Hex, Hget. eauto.
Qed.

Lemma adapters_route_to_registered_tunnels_witness :
  (exists request,
     fst (proxyMiddleware "example.com" Run.healthRequest Proxy.freshResponse
            Run.oneTunnel) = Reading "a" request)
  /\ "a" <> EmptyString
  /\ (exists r c, get "a" Run.oneTunnel = Some (r, c))
  /\ snd (pathBasedProxy Run.healthRequest Proxy.freshResponse Run.oneTunnel)
     = withUuidPos (S (uuidPos Run.oneTunnel)) Run.oneTunnel.
Proof.
  destruct (adapters_route_to_registered_tunnels "example.com" Run.healthRequest
              Proxy.freshResponse Run.oneTunnel) as (H1 & _ & H3 & _).
  split; [eexists; reflexivity |].
  destruct (H1 "a" _ (or_introl eq_refl)) as (Hne & Hget & _).
  split; [exact Hne |]. split; [exact Hget |].
  destruct (H3 "a" _ eq_refl) as (_ & _ & Hw). exact Hw.
Defined.

End AdapterProperties.

(* ===================================================================== *)
(** * Every reachable world is well formed *)
(* ===================================================================== *)

Section JsMapMore.
Import Registry.
Context {V : Type}.
Implicit Types (m : list (string * V)) (k : string) (v : V).











End JsMapMore.

Section WellFormedFacts.
Import Registry Spec Reach Inv.



















End WellFormedFacts.

(* ===================================================================== *)
(** * The registry in the worlds the program can reach *)
(* ===================================================================== *)

Section RunFacts.
Import Registry Reach.





End RunFacts.

Section ReachableFacts.
Import Registry Spec Reach Inv.










End ReachableFacts.

Section ReachableProperties.
Import Registry Spec Reach Inv.









End ReachableProperties.

(* ===================================================================== *)
(** * A request in flight *)
(* ===================================================================== *)

Section FlightFacts.
Import Registry Spec Reach Inv.



Lemma withPending_same c x :
  withPending (pendingRequests c)
    (withRequestCount x (withPending (pendingRequests c) c))
  = withRequestCount x c.
Proof. destruct c; reflexivity. Qed.



End FlightFacts.

Section FlightProperties.
Import Registry Spec Reach Inv.







(** X17.  [forwardRequest] to a tunnel whose channel is not open throws
    "Tunnel connection is not open" and removes the tunnel: its waiters
    are rejected with "Tunnel disconnected" in table order, its table
    is cleared and its entry deleted, while no close is called on the
    channel, no timer or promise is created and no frame is sent.
    Afterwards [get] finds nothing under the subdomain and a further
    [forwardRequest] throws "No tunnel found" and leaves the world as it
    is. *)
Theorem forward_on_closed_channel_removes_tunnel (sub : string)
    (request request' : TunnelRequest) (ms ms' : Z)
    (w : World) (r : nat) (c : TunnelClient) :
  get sub w = Some (r, c) ->
  readyState (sockets w (ws c)) <> OPEN ->
  let w1 := snd (forwardRequest sub request ms w) in
  fst (forwardRequest sub request ms w) = Threw TunnelNotOpen
  /\ newEvents w w1
     = rejections (pendingRequests c) ++ [EvPendingClear r; EvTunnelsDelete sub]
  /\ sockets w1 = sockets w
  /\ nextTimer w1 = nextTimer w /\ nextPromise w1 = nextPromise w
  /\ (forall k q, In (k, q) (pendingRequests c) ->
        timers w1 !! timeout q = None
        /\ (promises w !! sink q = None ->
            promises w1 !! sink q = Some (Rejected TunnelDisconnected)))
  /\ get sub w1 = None
  /\ forwardRequest sub request' ms' w1 = (Threw (NoTunnelFound sub), w1).
Proof.
  intros Hget Hclosed. cbv zeta.
  rewrite (forwardRequest_closed sub request ms w r c Hget Hclosed). cbn [fst snd].
  destruct (remove_counters _ _ _ _ Hget) as (_ & Hnt & Hnp & _).
  pose proof (remove_get_gone _ _ _ _ Hget) as Hgone.
  split; [reflexivity |]. split.
  { rewrite (newEvents_app _ _ _ (remove_trace _ _ _ _ Hget)).
    unfold eviction, closing.
    destruct (readyState (sockets w (ws c))); try reflexivity. congruence. }
  split; [now apply (remove_sockets_not_open _ _ _ _ Hget) |].
  split; [exact Hnt |]. split; [exact Hnp |].
  split.
  { intros k q Hin. split; [now apply (remove_timers_in _ _ _ _ Hget k) |].
    now apply (remove_rejects _ _ _ _ Hget k). }
  split; [exact Hgone |]. now apply forwardRequest_absent.
Qed.

Lemma forward_on_closed_channel_removes_tunnel_witness :
  get "a" Run.hungUp = Some (0, Run.tunnelA)
  /\ fst (forwardRequest "a" Sample.request3 30000 Run.hungUp) = Threw TunnelNotOpen
  /\ get "a" (snd (forwardRequest "a" Sample.request3 30000 Run.hungUp)) = None.
Proof.
  split; [reflexivity |].
  destruct (forward_on_closed_channel_removes_tunnel "a" Sample.request3
              Sample.request3 30000 30000 Run.hungUp 0 Run.tunnelA eq_refl)
    as (Hthrew & _ & _ & _ & _ & _ & Hgone & _); [discriminate |].
  split; [exact Hthrew | exact Hgone].
Defined.



End FlightProperties.

(* ===================================================================== *)
(** * From the registry's errors to the gateway's answers *)
(* ===================================================================== *)

Section GatewayFacts.
Import Registry Proxy Adapter.





End GatewayFacts.

Section GatewayProperties.
Import Registry Proxy Adapter.


End GatewayProperties.


(* ===================================================================== *)
(** * The session handler and the registry *)
(* ===================================================================== *)

Section SessionFacts.
Import Subdomain Registry Spec Reach Inv Session Adapter.

Lemma inClass_plain l :
  forallb inClass l = true -> noChar "." l /\ noChar ":" l.
Proof.
  unfold noChar. induction l as [|c l IH]; simpl; [auto |].
  intros H. apply andb_true_iff in H as [Hc Hl]. destruct (IH Hl) as [-> ->].
  unfold isChar.
  destruct (Ascii.eqb_spec c "."%char) as [->|_]; [discriminate Hc |].
  destruct (Ascii.eqb_spec c ":"%char) as [->|_]; [discriminate Hc |].
  auto.
Qed.

(** A host made of a label, a dot and the domain. *)
Lemma extractSubdomain_label (label domain : string) :
  label <> EmptyString ->
  noChar "." (list_ascii_of_string label) ->
  noChar ":" (list_ascii_of_string label) ->
  noChar ":" (list_ascii_of_string domain) ->
  extractSubdomain (label +:+ "." +:+ domain) domain = Some label.
Proof.
  intros Hne Hdot Hcolon Hdom.
  destruct (extractChars_label _ _ (list_of_string_nonempty _ Hne) Hdot Hcolon Hdom)
    as [Hplain _].
  unfold extractSubdomain. rewrite !list_of_append. simpl.
  rewrite Hplain. simpl. now rewrite string_of_list_ascii_of_string.
Qed.

Lemma remove_sendThrows k w s :
  sendThrows (sockets (remove k w) s) = sendThrows (sockets w s).
Proof.
  unfold remove. destruct (get k w) as [[r c]|]; [| reflexivity]. cbv zeta.
  unfold tunnelsDelete, pendingClear, updClient, emit. simpl.
  rewrite ?rejectAll_sockets.
  destruct (isOpen (readyState (sockets w (ws c)))); simpl;
    rewrite ?rejectAll_sockets; [| reflexivity].
  destruct (decide (s = ws c)); reflexivity.
Qed.

Lemma register_sendThrows k port s w s' :
  sendThrows (sockets (snd (register k port s w)) s') = sendThrows (sockets w s').
Proof.
  unfold register, uuidv4, tunnelsSet, emit. simpl.
  destruct (get k w); [apply remove_sendThrows | reflexivity].
Qed.

(** The register branch of [handleMessage] for a non-empty string. *)
Lemma handleMessage_register domain s raw hint port w :
  raw <> EmptyString ->
  let sub := sanitizeSubdomain raw in
  let reg := register sub port s w in
  handleMessage domain s (MsgRegister (FieldString raw)) hint port w
  = match wsSend s (FrameTunnelReady ("https://" +:+ sub +:+ "." +:+ domain) sub
                      (id (snd (fst reg)))) (snd reg) with
    | (None, w3) => (Done, w3)
    | (Some m, w3) => (Raised m, w3)
    end.
Proof.
  intros Hne. cbv zeta. unfold handleMessage, chooseSubdomain.
  rewrite (truthy_nonempty raw Hne).
  destruct (register (sanitizeSubdomain raw) port s w) as [[r c] w2].
  reflexivity.
Qed.

Lemma findByWs_None_inv s (h : gmap nat TunnelClient) l :
  findByWs s h l = None ->
  forall k r c, In (k, r) l -> h !! r = Some c -> ws c <> s.
Proof.
  induction l as [|[k0 r0] l IH]; simpl; [intros _ ? ? ? [] |].
  intros H k r c [[= -> ->]|Hin] Hc.
  - rewrite Hc in H. destruct (decide (ws c = s)); [discriminate | assumption].
  - destruct (h !! r0) as [c0|]; [destruct (decide (ws c0 = s)); [discriminate |] |];
      now apply (IH H k r c).
Qed.






(** Whatever becomes of the frames it writes, the listener leaves of a
    register message what [register] left. *)
Lemma onMessage_register_frame domain s raw hint port w :
  raw <> EmptyString ->
  let reg := snd (register (sanitizeSubdomain raw) port s w) in
  let w1 := snd (onMessage domain s (Some (MsgRegister (FieldString raw))) hint
                   port w) in
  tunnels w1 = tunnels reg /\ clients w1 = clients reg
  /\ sockets w1 = sockets reg /\ timers w1 = timers reg
  /\ promises w1 = promises reg
  /\ exists evs, trace w1 = trace reg ++ evs.
Proof.
  intros Hraw. cbv zeta. unfold onMessage.
  rewrite (handleMessage_register domain s raw hint port w Hraw). cbv zeta.
  destruct (register (sanitizeSubdomain raw) port s w) as [[r c] w2].
  cbn [fst snd]. unfold wsSend.
  destruct (sendThrows (sockets w2 s)) as [m|] eqn:Hthrow; cbn [fst snd].
  - unfold sendError, wsSend. rewrite Hthrow.
    destruct (isOpen (readyState (sockets w2 s))); cbn [snd];
      repeat (split; [reflexivity |]); exists []; now rewrite app_nil_r.
  - repeat (split; [reflexivity |]). eexists. reflexivity.
Qed.


(** The id of the tunnel [register] creates is the next UUID. *)
Lemma register_id k port s w :
  id (snd (fst (register k port s w))) = uuids w (uuidPos w).
Proof.
  unfold register, uuidv4. simpl.
  destruct (get k w) as [[r0 c0]|] eqn:Hget; [| reflexivity].
  destruct (remove_counters _ _ _ _ Hget) as (_ & _ & _ & -> & -> & _).
  reflexivity.
Qed.

(** The register branch of [handleMessage] once the name is chosen. *)
Lemma handleMessage_chosen domain s field hint port w raw w1 :
  chooseSubdomain field hint w = (Some raw, w1) ->
  let out := handleMessage domain s (MsgRegister field) hint port w in
  exists r client,
    get (sanitizeSubdomain raw) (snd out) = Some (r, client)
    /\ ws client = s /\ localPort client = port
    /\ id client = uuids w1 (uuidPos w1).
Proof.
  intros Hchoose. cbv zeta. unfold handleMessage. rewrite Hchoose.
  pose proof (register_id (sanitizeSubdomain raw) port s w1) as Hid.
  destruct (register (sanitizeSubdomain raw) port s w1) as [[r client] w2] eqn:Hreg.
  cbn [fst snd] in Hid.
  destruct (register_get _ _ _ _ _ _ _ Hreg) as (Hget & Hws & _ & Hport & _).
  exists r, client.
  match goal with |- context [wsSend s ?f w2] =>
    pose proof (wsSend_get s f w2 (sanitizeSubdomain raw)) as Hsend;
    destruct (wsSend s f w2) as [[m|] w3] end;
    cbn [snd] in *; rewrite Hsend; auto.
Qed.

End SessionFacts.

Section SessionProperties.
Import Subdomain Registry Spec Reach Inv Session Adapter.

(** X20.  The URL a session announces leads to the tunnel it
    registered.  When a register message names a non-empty string that
    [sanitizeSubdomain] does not empty, the domain has no colon and the
    channel accepts writes, the handler ends normally, its last event
    is the tunnel-ready frame on this channel with the URL
    [https://<subdomain>.<domain>], the subdomain and the id of the
    registered tunnel, and [get] of that subdomain returns this tunnel,
    on this channel and with the port of the session.  A request whose
    [Host] is the host of the announced URL is then routed by the
    host-based adapter to this subdomain, and so is by the path-based
    adapter a request whose route names the subdomain. *)
Theorem announced_host_routes_to_new_tunnel (domain : string) (s : nat)
    (raw : string) (hint : option string) (port : Z) (w : World)
    (req : HttpRequest) (res : Proxy.Response) :
  raw <> EmptyString ->
  sanitizeSubdomain raw <> EmptyString ->
  noChar ":" (list_ascii_of_string domain) ->
  sendThrows (sockets w s) = None ->
  let sub := sanitizeSubdomain raw in
  let out := handleMessage domain s (MsgRegister (FieldString raw)) hint port w in
  let w' := snd out in
  fst out = Done
  /\ (exists r client,
        get sub w' = Some (r, client)
        /\ ws client = s /\ localPort client = port
        /\ id client = uuids w (uuidPos w)
        /\ exists evs,
             trace w'
             = evs ++ [EvSend s (FrameTunnelReady
                                   ("https://" +:+ sub +:+ "." +:+ domain) sub
                                   (id client))])
  /\ extractSubdomain (sub +:+ "." +:+ domain) domain = Some sub
  /\ (hostOf req = sub +:+ "." +:+ domain ->
      exists request, fst (proxyMiddleware domain req res w') = Reading sub request)
  /\ (subdomainParam req = Some sub ->
      exists request, fst (pathBasedProxy req res w') = Reading sub request).
Proof.
  intros Hraw Hsub Hdom Hsend. cbv zeta.
  rewrite (handleMessage_register domain s raw hint port w Hraw). cbv zeta.
  pose proof (register_sendThrows (sanitizeSubdomain raw) port s w s) as Hthrows.
  assert (id (snd (fst (register (sanitizeSubdomain raw) port s w)))
          = uuids w (uuidPos w)) as Hid.
  { unfold register, uuidv4. simpl.
    destruct (get (sanitizeSubdomain raw) w) as [[r0 c0]|] eqn:Hget; [| reflexivity].
    destruct (remove_counters _ _ _ _ Hget) as (_ & _ & _ & -> & -> & _).
    reflexivity. }
  destruct (register (sanitizeSubdomain raw) port s w) as [[r client] w2] eqn:Hreg.
  cbn [fst snd] in *.
  destruct (register_get _ _ _ _ _ _ _ Hreg) as (Hget & Hws & _ & Hport & _).
  unfold wsSend. rewrite Hthrows, Hsend. cbn [fst snd].
  assert (get (sanitizeSubdomain raw)
            (emit (EvSend s (FrameTunnelReady
                               ("https://" +:+ sanitizeSubdomain raw +:+ "." +:+ domain)
                               (sanitizeSubdomain raw) (id client))) w2)
          = Some (r, client)) as Hget' by exact Hget.
  assert (extractSubdomain (sanitizeSubdomain raw +:+ "." +:+ domain) domain
          = Some (sanitizeSubdomain raw)) as Hex.
  { destruct (sanitizeChars_shape (list_ascii_of_string raw)) as (Hclass & _).
    destruct (inClass_plain _ Hclass) as [Hdot Hcolon].
    apply extractSubdomain_label; try assumption;
      unfold sanitizeSubdomain; now rewrite list_ascii_of_string_of_list_ascii. }
  split; [reflexivity |].
  split; [exists r, client; repeat (split; [assumption |]); eexists; reflexivity |].
  split; [exact Hex |]. split.
  - intros Hhost. unfold proxyMiddleware. rewrite Hhost, Hex, Hget'.
    eexists. reflexivity.
  - intros Hparam. unfold pathBasedProxy. rewrite Hparam.
    rewrite (truthy_nonempty _ Hsub). simpl negb. cbv iota. rewrite Hget'.
    eexists. reflexivity.
Qed.

Lemma announced_host_routes_to_new_tunnel_witness :
  sanitizeSubdomain "A" = "a"
  /\ hostOf Run.healthRequest = "a.example.com"
  /\ exists request,
       fst (proxyMiddleware "example.com" Run.healthRequest Proxy.freshResponse
              (snd (handleMessage "example.com" 1 (MsgRegister (FieldString "A"))
                      None 3000 Run.start)))
       = Reading "a" request.
Proof.
  split; [reflexivity |]. split; [reflexivity |].
  destruct (announced_host_routes_to_new_tunnel "example.com" 1 "A" None 3000
              Run.start Run.healthRequest Proxy.freshResponse
              ltac:(discriminate) ltac:(discriminate) eq_refl eq_refl)
    as (_ & _ & _ & Hhost & _).
  exact (Hhost eq_refl).
Defined.

(** X21.  A register message whose [subdomain] is a truthy value that
    is not a string is answered like a frame that is not JSON: the
    [TypeError] of [sanitizeSubdomain] is caught by the listener, so
    nothing is registered and no waiter, timer or promise is touched,
    whatever the header of the session suggested; the only effect is the
    error frame "Invalid message format", written when the channel is
    open and accepts writes.  With the channel not open the world is
    unchanged. *)
Theorem register_with_non_string_subdomain_is_refused (domain : string)
    (s : nat) (hint : option string) (port : Z) (w : World) :
  let out := onMessage domain s (Some (MsgRegister (FieldOther true))) hint port w in
  let w' := snd out in
  out = onMessage domain s None hint port w
  /\ tunnels w' = tunnels w /\ clients w' = clients w
  /\ timers w' = timers w /\ promises w' = promises w
  /\ sockets w' = sockets w /\ uuidPos w' = uuidPos w
  /\ newEvents w w'
     = (if isOpen (readyState (sockets w s))
        then match sendThrows (sockets w s) with
             | None => [EvSend s (FrameError "Invalid message format")]
             | Some _ => []
             end
        else [])
  /\ (readyState (sockets w s) <> OPEN -> out = (Done, w)).
Proof.
  cbv zeta. unfold onMessage, handleMessage, chooseSubdomain, sendError, wsSend.
  unfold newEvents.
  destruct (readyState (sockets w s)); simpl;
    try (rewrite drop_all; repeat split; congruence).
  destruct (sendThrows (sockets w s)); simpl;
    [rewrite drop_all; repeat split; congruence |].
  rewrite drop_app_length. repeat split; congruence.
Qed.



(** X23.  A session that registers again the subdomain it holds closes
    its own channel.  When the subdomain a register message leads to is
    held by a tunnel of the same channel and the channel is open,
    [register] evicts that tunnel, which closes the channel with code
    1000, and stores the new tunnel on the channel it has just closed:
    afterwards [get] returns the new tunnel while its channel is
    closing, so the next [forwardRequest] to the subdomain throws
    "Tunnel connection is not open" and removes the tunnel. *)
Theorem second_register_closes_own_channel (domain : string) (s : nat)
    (raw : string) (hint : option string) (port : Z)
    (request : TunnelRequest) (ms : Z)
    (w : World) (r0 : nat) (c0 : TunnelClient) :
  raw <> EmptyString ->
  get (sanitizeSubdomain raw) w = Some (r0, c0) ->
  ws c0 = s ->
  readyState (sockets w s) = OPEN ->
  let sub := sanitizeSubdomain raw in
  let w1 := snd (onMessage domain s (Some (MsgRegister (FieldString raw))) hint
                   port w) in
  In (EvClose s 1000 "Tunnel removed") (newEvents w w1)
  /\ readyState (sockets w1 s) = CLOSING
  /\ (exists r client, get sub w1 = Some (r, client) /\ ws client = s)
  /\ fst (forwardRequest sub request ms w1) = Threw TunnelNotOpen
  /\ get sub (snd (forwardRequest sub request ms w1)) = None.
Proof.
  intros Hraw Hget Hws Hopen. cbv zeta.
  destruct (onMessage_register_frame domain s raw hint port w Hraw)
    as (Htu & Hcl & Hso & _ & _ & evs & Htr). cbv zeta in *.
  set (w1 := snd (onMessage domain s (Some (MsgRegister (FieldString raw))) hint
                    port w)) in *.
  destruct (register (sanitizeSubdomain raw) port s w) as [[r client] wr] eqn:Hreg.
  cbn [snd] in *.
  destruct (register_get _ _ _ _ _ _ _ Hreg) as (Hgetr & Hwsr & _).
  assert (get (sanitizeSubdomain raw) w1 = Some (r, client)) as Hget1
      by (unfold get; rewrite Htu, Hcl; exact Hgetr).
  assert (sockets wr = sockets (remove (sanitizeSubdomain raw) w)
          /\ trace wr = trace (remove (sanitizeSubdomain raw) w)
                        ++ [EvTunnelsSet (sanitizeSubdomain raw) r]) as [Hsor Htrr].
  { unfold register in Hreg. rewrite Hget in Hreg. unfold uuidv4 in Hreg.
    simpl in Hreg. injection Hreg as <- _ <-. split; reflexivity. }
  assert (readyState (sockets w1 s) = CLOSING) as Hclosing.
  { rewrite Hso, Hsor. rewrite <- Hws.
    apply (remove_sockets_open _ _ _ _ Hget). now rewrite Hws. }
  split.
  { unfold newEvents. rewrite Htr, Htrr.
    rewrite (remove_trace _ _ _ _ Hget), <- !app_assoc, drop_app_length.
    unfold eviction, closing. rewrite Hws, Hopen. simpl.
    apply in_or_app. left. apply in_or_app. right. right. now left. }
  split; [exact Hclosing |].
  split; [exists r, client; auto |].
  assert (readyState (sockets w1 (ws client)) <> OPEN) as Hnot
      by (rewrite Hwsr, Hclosing; discriminate).
  rewrite (forwardRequest_closed _ request ms w1 r client Hget1 Hnot).
  cbn [fst snd]. split; [reflexivity |].
  apply (remove_get_gone _ _ _ _ Hget1).
Qed.

Lemma second_register_closes_own_channel_witness :
  get (sanitizeSubdomain "A") Run.oneTunnel = Some (0, Run.tunnelA)
  /\ readyState (sockets Run.oneTunnel 1) = OPEN
  /\ readyState
       (sockets (snd (onMessage "example.com" 1
                        (Some (MsgRegister (FieldString "A"))) None 3000
                        Run.oneTunnel)) 1) = CLOSING.
Proof.
  split; [reflexivity |]. split; [reflexivity |].
  destruct (second_register_closes_own_channel "example.com" 1 "A" None 3000
              Sample.request3 30000 Run.oneTunnel 0 Run.tunnelA
              ltac:(discriminate) eq_refl eq_refl eq_refl)
    as (_ & Hclosing & _).
  exact Hclosing.
Defined.

(** X24.  Which name a register message registers.  Unless the
    message's [subdomain] is a truthy value that is not a string, the
    handler registers, on this channel and with the port of the
    session, the sanitized form of the first of these that is a
    non-empty string: the [subdomain] of the message, the header of the
    session, the generated name.  An empty string in the message or in
    the header is skipped like an absent one.  The generator runs only
    when both are skipped, and only then is the id of the tunnel the
    second UUID drawn rather than the first. *)
Theorem register_subdomain_precedence (domain : string) (s : nat)
    (field : SubdomainField) (hint : option string) (port : Z) (w : World) :
  field <> FieldOther true ->
  let out := handleMessage domain s (MsgRegister field) hint port w in
  let named := match field with FieldString m => m | _ => EmptyString end in
  let hinted := match hint with Some h => h | None => EmptyString end in
  let generated := truthy named || truthy hinted = false in
  let raw := if truthy named then named
             else if truthy hinted then hinted
             else fst (generateSubdomain w) in
  exists r client,
    get (sanitizeSubdomain raw) (snd out) = Some (r, client)
    /\ ws client = s /\ localPort client = port
    /\ (~ generated -> id client = uuids w (uuidPos w))
    /\ (generated -> id client = uuids w (S (uuidPos w))).
Proof.
  intros Hfield. cbv zeta.
  set (named := match field with FieldString m => m | _ => EmptyString end).
  set (hinted := match hint with Some h => h | None => EmptyString end).
  assert (exists w1,
            chooseSubdomain field hint w
            = (Some (if truthy named then named
                     else if truthy hinted then hinted
                     else fst (generateSubdomain w)), w1)
            /\ uuids w1 = uuids w
            /\ uuidPos w1 = if truthy named || truthy hinted then uuidPos w
                            else S (uuidPos w)) as (w1 & Hchoose & Hu & Hpos).
  { unfold chooseSubdomain, named, hinted.
    destruct field as [|m|[|]]; [| | congruence |];
      try destruct (truthy m) eqn:Hm; simpl;
      try (eexists; split; [reflexivity | split; reflexivity]);
      destruct hint as [h|]; try destruct (truthy h) eqn:Hh; simpl;
      try (eexists; split; [reflexivity | split; reflexivity]);
      unfold generateSubdomain, mathRandom, uuidv4; simpl;
      eexists; (split; [reflexivity | split; reflexivity]). }
  destruct (handleMessage_chosen domain s field hint port w _ w1 Hchoose)
    as (r & client & Hget & Hws & Hport & Hid). cbv zeta in *.
  exists r, client. rewrite Hu, Hpos in Hid.
  split; [exact Hget |]. split; [exact Hws |]. split; [exact Hport |].
  destruct (truthy named || truthy hinted); split; intros H;
    try exact Hid; try discriminate H; exfalso; apply H; reflexivity.
Qed.

Lemma register_subdomain_precedence_witness :
  FieldString EmptyString <> FieldOther true
  /\ exists r client,
       get "my-app"
         (snd (handleMessage "example.com" 1 (MsgRegister (FieldString EmptyString))
                 (Some "My App") 3000 Run.start)) = Some (r, client)
       /\ ws client = 1.
Proof.
  split; [discriminate |].
  destruct (register_subdomain_precedence "example.com" 1 (FieldString EmptyString)
              (Some "My App") 3000 Run.start ltac:(discriminate))
    as (r & client & Hget & Hws & _).
  exists r, client. split; [exact Hget | exact Hws].
Defined.

End SessionProperties.

(* ===================================================================== *)
(** * The landing page and the host-based adapter ([server.ts]) *)
(* ===================================================================== *)

Section LandingProperties.
Import Adapter.

(** X25.  The landing page route and the host-based adapter never
    claim the same host, but for one set-up: when [extractSubdomain]
    finds a subdomain in a host, the guard of the landing page passes
    the request on, unless the domain is [0.0.1] and the host
    [127.0.0.1], whose subdomain would be [127].  A host that is the
    domain itself is a root host and has no subdomain. *)
Theorem tunnel_hosts_pass_the_landing_page (host domain : string) :
  (forall sub, extractSubdomain host domain = Some sub ->
     isRootHost host domain = true ->
     sub = "127" /\ domain = "0.0.1")
  /\ (noChar ":" (list_ascii_of_string domain) ->
      isRootHost domain domain = true /\ extractSubdomain domain domain = None).
Proof.
  split.
  - intros sub Hex Hroot.
    destruct (extractSubdomain_sound _ _ _ Hex) as (Hne & Hdot & _ & Hhost).
    unfold isRootHost in Hroot. cbv zeta in Hroot. rewrite Hhost in Hroot.
    rewrite !negb_andb, !negb_involutive in Hroot.
    apply orb_true_iff in Hroot as [Hroot|Hroot];
      [apply orb_true_iff in Hroot as [Hroot|Hroot] |];
      apply String.eqb_eq in Hroot;
      apply (f_equal list_ascii_of_string) in Hroot;
      rewrite !list_of_append in Hroot.
    + exfalso. apply (f_equal (@length ascii)) in Hroot.
      rewrite !length_app in Hroot. simpl in Hroot. lia.
    + exfalso.
      assert (In "."%char (list_ascii_of_string "localhost")) as Hin
          by (rewrite <- Hroot; apply in_or_app; right; simpl; now left).
      simpl in Hin. intuition discriminate.
    + revert Hdot Hne Hroot.
      rewrite <- (string_of_list_ascii_of_string sub),
              <- (string_of_list_ascii_of_string domain).
      rewrite !list_ascii_of_string_of_list_ascii.
      generalize (list_ascii_of_string sub) as l.
      generalize (list_ascii_of_string domain) as d.
      intros d l Hdot Hne Hroot. unfold noChar in Hdot.
      destruct l as [|a [|b [|c [|e l]]]]; simpl in Hroot, Hdot;
        try (exfalso; apply Hne; reflexivity);
        inversion Hroot; subst; simpl in Hdot; try discriminate.
      split; reflexivity.
  - intros Hdom. split.
    + unfold isRootHost. cbv zeta. rewrite (beforeColon_clean _ Hdom).
      rewrite string_of_list_ascii_of_string, String.eqb_refl. reflexivity.
    + unfold extractSubdomain.
      destruct (extractChars (list_ascii_of_string domain) (list_ascii_of_string domain))
        as [l|] eqn:E; [| reflexivity].
      destruct (extractChars_sound _ _ _ E) as (_ & _ & _ & Hhost).
      pose proof (beforeColon_length (list_ascii_of_string domain)) as Hlen.
      rewrite Hhost, length_app in Hlen. simpl in Hlen. lia.
Qed.

Lemma tunnel_hosts_pass_the_landing_page_witness :
  noChar ":" (list_ascii_of_string "example.com")
  /\ isRootHost "example.com" "example.com" = true
  /\ extractSubdomain "example.com" "example.com" = None
  /\ extractSubdomain "a.example.com:443" "example.com" = Some "a"
  /\ isRootHost "a.example.com:443" "example.com" = false.
Proof.
  destruct (tunnel_hosts_pass_the_landing_page "example.com" "example.com")
    as [_ Hroot].
  destruct (Hroot eq_refl) as [H1 H2].
  split; [reflexivity |]. split; [exact H1 |]. split; [exact H2 |].
  split; reflexivity.
Defined.

End LandingProperties.
